(** * PartialContentServer: the range-request subsystem of [server.js]

    A shallow embedding of [getRanges], [isDenialOfServiceAttacks],
    [partialContentHeaders], [responseAllStream] and [httpListener], and the
    properties of the range grammar, the denial-of-service scorer and the
    response headers that follow from them.

    Conventions of the embedding.
    - A JavaScript Number is read twice.  The first reading is a [Z]: every
      number the program computes is an integer obtained from decimal digits
      and a file size by [+] and [-], and doubles are exact on integers of
      magnitude below 2^53.  The second reading, the module [Binary64],
      rounds every result to the nearest binary64 value and has the
      infinities and NaN, so it also covers headers whose digits go beyond
      2^53; [getRanges_exact] states when the two agree.  The one
      non-integer, the 1.5 multiplier of the scorer, is a rational ([Q]).
    - A JavaScript string is a [string]: a sequence of 8-bit code units.
      Node decodes request header values as latin1, and every string the
      program builds for the response is ASCII, so [String.length] is both
      the [.length] of the source and the number of bytes on the wire.
    - A thrown value is an [Error] record whose fields are the properties the
      [catch] block reads; [throw] is the [Throw] constructor of [result].
    - The response object is a record threaded through [httpListener]; what
      was set before a [throw] is still set in the [catch] block. *)

From Stdlib Require Import ZArith QArith Lia.
From Stdlib Require Import Strings.String Strings.Ascii.
From Stdlib Require Import Numbers.DecimalString Numbers.DecimalPos Numbers.DecimalN.
From stdpp Require Import base option list gmap strings.

Local Open Scope string_scope.
Local Open Scope Z_scope.

(** ** JavaScript primitives used by the program *)

Module JS.

(** [\r\n] *)
Definition CR : ascii := ascii_of_nat 13.
Definition LF : ascii := ascii_of_nat 10.
Definition CRLF : string := String CR (String LF EmptyString).

(** A double quote, as a string. *)
Definition DQUOTE : string := String (ascii_of_nat 34) EmptyString.

(** The character class [[0-9]]. *)
Definition is_digit (c : ascii) : bool :=
  ((48 <=? N_of_ascii c) && (N_of_ascii c <=? 57))%N.

(** White space removed by [String.prototype.trim], among code units below
    256: TAB, LF, VT, FF, CR, SPACE and NBSP. *)
Definition is_space (c : ascii) : bool :=
  let n := N_of_ascii c in
  (((9 <=? n) && (n <=? 13)) || (n =? 32) || (n =? 160))%N.

Fixpoint trimStart (s : string) : string :=
  match s with
  | String c r => if is_space c then trimStart r else s
  | EmptyString => EmptyString
  end.

Fixpoint trimEnd (s : string) : string :=
  match s with
  | String c r =>
      match trimEnd r with
      | EmptyString => if is_space c then EmptyString else String c EmptyString
      | r' => String c r'
      end
  | EmptyString => EmptyString
  end.

(** [s.trim()] *)
Definition trim (s : string) : string := trimEnd (trimStart s).

(** [s.split(sep)] for a one-character separator: the pieces between the
    separators, never an empty array. *)
Fixpoint split (sep : ascii) (s : string) : list string :=
  match s with
  | EmptyString => [EmptyString]
  | String c r =>
      if Ascii.eqb c sep then EmptyString :: split sep r
      else match split sep r with
           | piece :: pieces => String c piece :: pieces
           | [] => [String c EmptyString]
           end
  end.

(** The longest prefix of digits, and what follows it. *)
Fixpoint span_digits (s : string) : string * string :=
  match s with
  | String c r =>
      if is_digit c
      then let '(ds, rest) := span_digits r in (String c ds, rest)
      else (EmptyString, s)
  | EmptyString => (EmptyString, EmptyString)
  end.

(** One attempt of [/([0-9]{0,})\-([0-9]{0,})/] at the head of [s].  The
    quantifiers are greedy; giving back digits of the first group cannot
    help, because the character after a shorter run is a digit and not
    [-], so the attempt is decided by the longest run. *)
Definition exec_here (s : string) : option (string * string) :=
  let '(g1, rest) := span_digits s in
  match rest with
  | String "-" r => Some (g1, fst (span_digits r))
  | _ => None
  end.

(** [/([0-9]{0,})\-([0-9]{0,})/g.exec(s)] on a fresh regular expression
    ([lastIndex] is 0): the leftmost match, as its two capture groups;
    [None] is the [null] of a failed match. *)
Fixpoint exec (s : string) : option (string * string) :=
  match exec_here s with
  | Some groups => Some groups
  | None =>
      match s with
      | String _ r => exec r
      | EmptyString => None
      end
  end.

(** Value of a decimal digit. *)
Definition digit_value (c : ascii) : Z := Z.of_N (N_of_ascii c) - 48.

Fixpoint Number_acc (s : string) (acc : Z) : Z :=
  match s with
  | String c r => Number_acc r (10 * acc + digit_value c)
  | EmptyString => acc
  end.

(** The integer a string of decimal digits denotes (the empty string
    gives 0).  [Number(s)] is this integer when it is below 2^53, and its
    nearest binary64 value in general ([Binary64.Number]). *)
Definition Number (s : string) : Z := Number_acc s 0.

(** [`${n}`] for an integer of magnitude below 2^53, the file sizes and
    the offsets inside a file: its decimal digits.  (Beyond 2^53 the source
    prints the shortest digits that read back as the same Number.) *)
Definition toString (n : Z) : string := NilEmpty.string_of_int (Z.to_int n).

(** [`${x}`] for a property that may be missing. *)
Definition toStringOpt (x : option Z) : string :=
  match x with
  | Some n => toString n
  | None => "undefined"
  end.

End JS.

(** ** Thrown values *)

Record Error := {
  e_statusCode : option Z;
  e_statusMessage : option string;
  e_fileSize : option Z
}.

Module ERRORS.
Definition NOT_FOUND : Error :=
  {| e_statusCode := Some 404; e_statusMessage := Some "Not Found"; e_fileSize := None |}.
Definition METHOD_NOT_ALLOWED : Error :=
  {| e_statusCode := Some 405; e_statusMessage := Some "Method Not Allowed"; e_fileSize := None |}.
Definition BYTES_UNIT_NOT_VALID : Error :=
  {| e_statusCode := Some 416; e_statusMessage := Some "Bytes unit not valid"; e_fileSize := None |}.
Definition RANGE_NOT_SATISFABLE : Error :=
  {| e_statusCode := Some 416; e_statusMessage := Some "Range Not Satisfable"; e_fileSize := None |}.
Definition INTERNAL_SERVER_ERROR : Error :=
  {| e_statusCode := Some 500; e_statusMessage := Some "Internal Server Error"; e_fileSize := None |}.
End ERRORS.

(** An exception raised by the runtime (a [TypeError] on destructuring
    [null] or on [undefined.split], a [RangeError] of [fs]): it has none of
    the properties the [catch] block reads. *)
Definition RuntimeError : Error :=
  {| e_statusCode := None; e_statusMessage := None; e_fileSize := None |}.

(** [{...ERRORS.RANGE_NOT_SATISFABLE, fileSize}] *)
Definition withFileSize (e : Error) (fileSize : Z) : Error :=
  {| e_statusCode := e_statusCode e; e_statusMessage := e_statusMessage e;
     e_fileSize := Some fileSize |}.

Inductive result (A : Type) : Type :=
| Ok (a : A)
| Throw (e : Error).
Arguments Ok {A} a.
Arguments Throw {A} e.

#[global] Instance result_ret : MRet result := fun A a => Ok a.
#[global] Instance result_bind : MBind result := fun A B k r =>
  match r with
  | Ok a => k a
  | Throw e => Throw e
  end.

(** ** Byte ranges *)

Record ByteRange := { start : Z; end_ : Z }.

(** The number of bytes of an inclusive range. *)
Definition width (r : ByteRange) : Z := end_ r - start r + 1.

(** ** The denial-of-service scorer *)

Definition POINT_OF_NOT_SATISFABLE : Z := 10.
Definition POINT_CROSS_RANGE : Z := 3.
Definition POINT_SMALL_RANGE : Z := 2.
Definition SMALL_RANGE : Z := 65536.
Definition POINT_NOT_SORTED_MULTIPLICATOR : Q := 3 # 2.

(** The three variables the [forEach] callback of
    [isDenialOfServiceAttacks] updates. *)
Record Score := {
  POINT_SUM : Z;
  MULTIPLICATOR : Q;
  check : ByteRange
}.

(** The body of the callback, statement by statement, on exact integers
    ([Binary64.scoreStep] is the same body with rounded differences). *)
Definition scoreStep (st : Score) (index : nat) (value : ByteRange) : Score :=
  let sum0 := POINT_SUM st in
  let sum1 := if start value >? end_ value
              then sum0 + POINT_OF_NOT_SATISFABLE else sum0 in
  let sum2 := if end_ value - start value <? SMALL_RANGE
              then sum1 + POINT_SMALL_RANGE else sum1 in
  let prev := check st in
  let mult := if (0 <? index)%nat && (end_ prev <? start value)
              then POINT_NOT_SORTED_MULTIPLICATOR else MULTIPLICATOR st in
  let sum3 := if (0 <? index)%nat
                 && (Z.max (end_ prev) (end_ value) - Z.min (start prev) (start value)
                     <? (end_ prev - start prev) + (end_ value - start value))
              then sum2 + POINT_CROSS_RANGE else sum2 in
  {| POINT_SUM := sum3; MULTIPLICATOR := mult; check := value |}.

(** [forEach] from a given index. *)
Fixpoint scoreFrom (index : nat) (values : list ByteRange) (st : Score) : Score :=
  match values with
  | [] => st
  | value :: rest => scoreFrom (S index) rest (scoreStep st index value)
  end.

(** The state after the loop; [check] starts as [byteRangeSet[0]]. *)
Definition scoreOf (byteRangeSet : list ByteRange) : option Score :=
  match byteRangeSet with
  | [] => None
  | first :: _ =>
      Some (scoreFrom 0 byteRangeSet
              {| POINT_SUM := 0; MULTIPLICATOR := 1; check := first |})
  end.

(** [POINT_SUM * MULTIPLICATOR] *)
Definition finalScore (st : Score) : Q := (inject_Z (POINT_SUM st) * MULTIPLICATOR st)%Q.

Definition isDenialOfServiceAttacks (byteRangeSet : list ByteRange) : bool :=
  match scoreOf byteRangeSet with
  | Some st => Qle_bool (inject_Z POINT_OF_NOT_SATISFABLE) (finalScore st)
  | None => false
  end.

(** ** The range grammar: [getRanges] *)

(** The options object of [getRanges], with the defaults of its signature. *)
Record Options := {
  correctValues : bool;
  preventAtack : bool;
  partialMaxLength : Z
}.

Definition defaultOptions : Options :=
  {| correctValues := false; preventAtack := true; partialMaxLength := 0 |}.

(** What [getRanges] returns: [{byteRangeSet, length}]. *)
Record Ranges := {
  byteRangeSet : list ByteRange;
  length : Z
}.

(** [start ? Number(start) : start]: the empty capture stays the empty
    string ([None]), anything else becomes a number. *)
Definition toNumber (group : string) : option Z :=
  match group with
  | EmptyString => None
  | _ => Some (JS.Number group)
  end.

(** The value of a capture used as an operand of [-]: [''] counts as 0. *)
Definition operand (x : option Z) : Z := default 0 x.

(** Lines 209-217: the suffix form and the open-ended form.  A number [x]
    never passes [x !== 0 && !x], the empty string always does. *)
Definition expand (fileSize : Z) (start0 end0 : option Z) : ByteRange :=
  let '(start1, end1) :=
    match start0 with
    | None => (fileSize - operand end0, Some (fileSize - 1))
    | Some s => (s, end0)
    end in
  let end2 :=
    match end1 with
    | None => fileSize - 1
    | Some e => e
    end in
  {| start := start1; end_ := end2 |}.

(** The arrow function [limit] of line 219. *)
Definition limit (opts : Options) (fileSize val : Z) : Z :=
  if correctValues opts
  then (if val <? 0 then 0
        else if val >? fileSize - 1 then fileSize - 1 else val)
  else val.

Definition limitRange (opts : Options) (fileSize : Z) (r : ByteRange) : ByteRange :=
  {| start := limit opts fileSize (start r); end_ := limit opts fileSize (end_ r) |}.

(** Lines 223-225, on exact integers ([Binary64.truncate] is the same
    statement with rounded sums); [partialMaxLength &&] holds for every
    number but 0. *)
Definition truncate (opts : Options) (r : ByteRange) : ByteRange :=
  if negb (partialMaxLength opts =? 0) && (end_ r - start r + 1 >? partialMaxLength opts)
  then {| start := start r; end_ := start r + partialMaxLength opts - 1 |}
  else r.

(** One element of the comma-separated list, up to the pushed range;
    destructuring the [null] of a failed match throws. *)
Definition parseSpec (opts : Options) (fileSize : Z) (value : string) : result ByteRange :=
  match JS.exec value with
  | None => Throw RuntimeError
  | Some (g1, g2) =>
      Ok (truncate opts (limitRange opts fileSize
            (expand fileSize (toNumber g1) (toNumber g2))))
  end.

(** The [forEach] of lines 205-228 over the pieces, threading
    [byteRangeSet] and [length]. *)
Fixpoint parseAll (opts : Options) (fileSize : Z) (values : list string)
    (acc : Ranges) : result Ranges :=
  match values with
  | [] => Ok acc
  | value :: rest =>
      r ← parseSpec opts fileSize value;
      parseAll opts fileSize rest
        {| byteRangeSet := byteRangeSet acc ++ [r];
           length := length acc + (end_ r - start r + 1) |}
  end.

Definition getRanges (range : string) (fileSize : Z) (opts : Options) : result Ranges :=
  match JS.split "=" (JS.trim range) with
  | bytesUnit :: more =>
      if negb (String.eqb bytesUnit "bytes") then Throw ERRORS.BYTES_UNIT_NOT_VALID
      else
        match more with
        | byteRangeSetString :: _ =>
            ranges ← parseAll opts fileSize (JS.split "," byteRangeSetString)
                        {| byteRangeSet := []; length := 0 |};
            if preventAtack opts && isDenialOfServiceAttacks (byteRangeSet ranges)
            then Throw (withFileSize ERRORS.RANGE_NOT_SATISFABLE fileSize)
            else Ok ranges
        | [] => Throw RuntimeError
        end
  | [] => Throw RuntimeError
  end.

(** ** Multipart headers: [partialContentHeaders] *)

(** What [partialContentHeaders] returns: [{headers, size}]. *)
Record PartialHeaders := {
  headers : list string;
  size : Z
}.

(** The header block of one part, lines 150-154; [index ? '\r\n' : ''] is
    empty for index 0 only. *)
Definition partHeader (index : nat) (boundary contentType : string) (fileSize : Z)
    (range : ByteRange) : string :=
  ((if (0 <? index)%nat then JS.CRLF else EmptyString) ++ "--" ++ boundary ++ JS.CRLF)
  ++ ("Content-Type: " ++ contentType ++ JS.CRLF)
  ++ ("Content-Range: bytes " ++ JS.toString (start range) ++ "-"
        ++ JS.toString (end_ range) ++ "/" ++ JS.toString fileSize ++ JS.CRLF)
  ++ JS.CRLF.

Fixpoint partialContentHeadersFrom (index : nat) (ranges : list ByteRange)
    (boundary contentType : string) (fileSize : Z) (acc : PartialHeaders) : PartialHeaders :=
  match ranges with
  | [] => acc
  | range :: rest =>
      let header := partHeader index boundary contentType fileSize range in
      partialContentHeadersFrom (S index) rest boundary contentType fileSize
        {| headers := headers acc ++ [header];
           size := size acc + Z.of_nat (String.length header) |}
  end.

Definition partialContentHeaders (ranges : list ByteRange) (boundary contentType : string)
    (fileSize : Z) : PartialHeaders :=
  partialContentHeadersFrom 0 ranges boundary contentType fileSize
    {| headers := []; size := 0 |}.

(** ** The response object and the file system *)

(** A header value as [setHeader] received it: a number or a string. *)
Inductive HeaderValue : Type :=
| HNum (n : Z)
| HStr (s : string).

(** The part of [http.ServerResponse] the program uses.  [body] is what
    has been written; [statusMessage] is [None] until it is assigned. *)
Record Response := {
  statusCode : Z;
  statusMessage : option string;
  headerMap : gmap string HeaderValue;
  body : string;
  finished : bool
}.

Definition newResponse : Response :=
  {| statusCode := 200; statusMessage := None; headerMap := ∅; body := EmptyString; finished := false |}.

Definition setStatus (code : Z) (message : option string) (response : Response) : Response :=
  {| statusCode := code; statusMessage := message; headerMap := headerMap response;
     body := body response; finished := finished response |}.

Definition setStatusCode (code : Z) (response : Response) : Response :=
  setStatus code (statusMessage response) response.

Definition setHeader (name : string) (value : HeaderValue) (response : Response) : Response :=
  {| statusCode := statusCode response; statusMessage := statusMessage response;
     headerMap := <[name := value]> (headerMap response);
     body := body response; finished := finished response |}.

(** [response.write(chunk)], also what a piped stream does with its data. *)
Definition write (chunk : string) (response : Response) : Response :=
  {| statusCode := statusCode response; statusMessage := statusMessage response;
     headerMap := headerMap response;
     body := body response ++ chunk; finished := finished response |}.

(** [response.end(chunk)]; [response.end()] ends with the empty chunk. *)
Definition endWith (chunk : string) (response : Response) : Response :=
  {| statusCode := statusCode response; statusMessage := statusMessage response;
     headerMap := headerMap response;
     body := body response ++ chunk; finished := true |}.

(** [Number.MAX_SAFE_INTEGER] *)
Definition MAX_SAFE_INTEGER : Z := 2 ^ 53 - 1.

(** What [path.extname] can return: the empty string, or a string that
    starts with a dot. *)
Definition isExtname (s : string) : bool :=
  match s with
  | EmptyString => true
  | String c _ => Ascii.eqb c "."
  end.

(** A file below [filesFolder]: what [path.basename] and [path.extname]
    give for its path, and its bytes ([fs.statSync(..).size] is their
    number).  The two last fields record what holds of every file the
    program can meet: the extension has the shape [path.extname] returns,
    and the size is a safe integer. *)
Record File := {
  fileName : string;
  fileExtension : string;
  content : string;
  extensionShape : isExtname fileExtension = true;
  sizeSafe : Z.of_nat (String.length content) <= MAX_SAFE_INTEGER
}.

(** [fs.createReadStream(path, {start, end})], as the bytes the stream
    delivers: the inclusive span, cut at the end of the file.  Node refuses
    with a [RangeError] a [start] or an [end] that is not a safe integer
    between 0 and [MAX_SAFE_INTEGER], and an [end] below [start]. *)
Definition createReadStream (file : File) (range : ByteRange) : result string :=
  if (start range <? 0) || (end_ range <? start range)
     || (MAX_SAFE_INTEGER <? end_ range)
  then Throw RuntimeError
  else Ok (substring (Z.to_nat (start range))
             (Z.to_nat (end_ range - start range + 1)) (content file)).

(** The table of line 12, read with [rangesContentTypes[extension]].  The
    map holds the own properties of the object; the properties it
    inherits from [Object.prototype] have names that neither are empty nor
    start with a dot, so no extension of a [File] reaches them. *)
Definition rangesContentTypes : gmap string string :=
  {[ ".mp4" := "audio/mp4"; ".txt" := "text"; ".html" := "text/html; charset=UTF-8" ]}.

Record ContentInfo := {
  rangeSupport : bool;
  type : string
}.

(** Called with the extension of a [File] (line 48). *)
Definition getContentInfo (extension : string) : ContentInfo :=
  match rangesContentTypes !! extension with
  | Some t => {| rangeSupport := true; type := t |}
  | None => {| rangeSupport := false; type := "application/octet-stream" |}
  end.

(** ** Writing the parts in order: [responseAllStream] *)

(** Both arrays are consumed from the front; each header is written before
    its stream is piped, and the next stream starts after the previous one
    ended.  The second component tells whether the promise is fulfilled: it
    is rejected when [response.write] receives the [undefined] of an
    exhausted header array.  Read errors of the streams are outside the
    embedding: a stream is the bytes it delivers. *)
Fixpoint responseAllStream (streams headers : list string) (response : Response)
    : Response * bool :=
  match streams with
  | [] => (response, true)
  | readableStream :: streams' =>
      match headers with
      | [] => (response, false)
      | paritalHeader :: headers' =>
          responseAllStream streams' headers'
            (write readableStream (write paritalHeader response))
      end
  end.

(** ** The dispatcher: [httpListener] *)

Record Request := {
  method : string;
  url : string;
  range : option string   (* request.headers['range'] *)
}.

(** The constant [partialMaxLength] of line 29 (512 kB); the record field
    of the same name is the option it is passed as. *)
Definition partialMaxLength_const : Z := 524288.

(** The options [httpListener] passes: [{partialMaxLength}]. *)
Definition serverOptions : Options :=
  {| correctValues := false; preventAtack := true; partialMaxLength := partialMaxLength_const |}.

(** [request.headers['range']] as a condition: a non-empty string. *)
Definition truthy (h : option string) : option string :=
  match h with
  | Some EmptyString => None
  | _ => h
  end.

Fixpoint createReadStreams (file : File) (ranges : list ByteRange) : result (list string) :=
  match ranges with
  | [] => Ok []
  | value :: rest =>
      stream ← createReadStream file value;
      streams ← createReadStreams file rest;
      Ok (stream :: streams)
  end.

(** Lines 70-92. *)
Definition multiRange (boundary : string) (request : Request) (file : File)
    (contentInfo : ContentInfo) (fileSize : Z) (ranges : Ranges) (response : Response)
    : Response * option Error :=
  let partialHeaders := partialContentHeaders (byteRangeSet ranges) boundary
                          (type contentInfo) fileSize in
  let endBoundary := JS.CRLF ++ "--" ++ boundary ++ "--" in
  let response := setHeader "Content-Type"
                    (HStr ("multipart/byteranges; boundary=" ++ boundary)) response in
  let response := setHeader "Content-Length"
                    (HStr (JS.toString (length ranges + size partialHeaders
                                        + Z.of_nat (String.length endBoundary)))) response in
  if String.eqb (method request) "HEAD" then (endWith EmptyString response, None)
  else
    match createReadStreams file (byteRangeSet ranges) with
    | Throw e => (response, Some e)
    | Ok streams =>
        let '(response, fulfilled) :=
          responseAllStream streams (headers partialHeaders) response in
        (if fulfilled then endWith endBoundary response else response, None)
    end.

(** Lines 94-104. *)
Definition singleRange (request : Request) (file : File) (fileSize : Z)
    (ranges : Ranges) (response : Response) : Response * option Error :=
  match byteRangeSet ranges with
  | [] => (response, Some RuntimeError)
  | r :: _ =>
      let response := setHeader "Content-Range"
                        (HStr ("bytes " ++ JS.toString (start r) ++ "-"
                               ++ JS.toString (end_ r) ++ "/" ++ JS.toString fileSize))
                        response in
      if String.eqb (method request) "HEAD" then (endWith EmptyString response, None)
      else
        match createReadStream file r with
        | Throw e => (response, Some e)
        | Ok readStream => (endWith readStream response, None)
        end
  end.

(** Lines 106-118. *)
Definition fullDelivery (request : Request) (file : File) (response : Response)
    : Response * option Error :=
  let response := setHeader "Content-Disposition"
                    (HStr ("attachment; filename=" ++ JS.DQUOTE ++ fileName file ++ JS.DQUOTE))
                    response in
  if String.eqb (method request) "HEAD" then (endWith EmptyString response, None)
  else (endWith (content file) response, None).

(** The [try] block: the response as it stands when the block completes
    or throws, and the thrown value if any.  [files] maps a request URL to
    the file [filePath] denotes, if it exists; [boundary] is what [uuid4()]
    returns. *)
Definition tryBlock (files : gmap string File) (boundary : string) (request : Request)
    (response : Response) : Response * option Error :=
  if negb (bool_decide (method request ∈ ["GET"; "HEAD"]))
  then (response, Some ERRORS.METHOD_NOT_ALLOWED)
  else
    match files !! url request with
    | None => (response, Some ERRORS.NOT_FOUND)
    | Some file =>
        let contentInfo := getContentInfo (fileExtension file) in
        let fileSize := Z.of_nat (String.length (content file)) in
        let response := setStatus 200 (Some "OK") response in
        let response := setHeader "Content-Type" (HStr (type contentInfo)) response in
        let response := setHeader "Content-Length" (HNum fileSize) response in
        let response := setHeader "Cache-Control" (HStr "no-cache") response in
        let response := if rangeSupport contentInfo
                        then setHeader "Accept-Ranges" (HStr "bytes") response
                        else response in
        match (if rangeSupport contentInfo then truthy (range request) else None) with
        | Some rangeHeader =>
            let response := setStatusCode 206 response in
            match getRanges rangeHeader fileSize serverOptions with
            | Throw e => (response, Some e)
            | Ok ranges =>
                if (1 <? List.length (byteRangeSet ranges))%nat
                then multiRange boundary request file contentInfo fileSize ranges response
                else singleRange request file fileSize ranges response
            end
        | None => fullDelivery request file response
        end
    end.

(** [x || y] on an optional status code: 0 and a missing one are falsy. *)
Definition orCode (x : option Z) (y : Z) : Z :=
  match x with
  | Some c => if c =? 0 then y else c
  | None => y
  end.

(** [x || y] on an optional string: empty and missing are falsy. *)
Definition orMessage (x : option string) (y : string) : string :=
  match x with
  | Some EmptyString => y
  | Some m => m
  | None => y
  end.

(** The [catch] block, lines 119-132.  The [switch] compares
    [error.statusCode] with the two status codes 416 and 405. *)
Definition catchBlock (error : Error) (response : Response) : Response :=
  let response :=
    setStatus (orCode (e_statusCode error) 500)
              (Some (orMessage (e_statusMessage error) "Internal Server Error"))
              response in
  let response :=
    if bool_decide (e_statusCode error = e_statusCode ERRORS.RANGE_NOT_SATISFABLE)
    then setHeader "Content-Range"
           (HStr ("bytes */" ++ JS.toStringOpt (e_fileSize error))) response
    else if bool_decide (e_statusCode error = e_statusCode ERRORS.METHOD_NOT_ALLOWED)
    then setHeader "Allow" (HStr "GET,HEAD") response
    else response in
  endWith EmptyString response.

Definition httpListener (files : gmap string File) (boundary : string) (request : Request)
    : Response :=
  match tryBlock files boundary request newResponse with
  | (response, None) => response
  | (response, Some error) => catchBlock error response
  end.


(** ** The numbers of [getRanges] as binary64 values

    The definitions above read the arithmetic of [getRanges] and of the
    scorer on exact integers.  A Number of the source is a binary64 value,
    and a header may hold digits beyond 2^53.  This module models the same
    two functions with the rounding of binary64.  Every Number they
    compute is the rounded value of an integer (a file size, the digits of
    the header, the integer options, and sums and differences of these),
    an infinity or NaN, so a Number is modelled as the integer it holds,
    [Infinity] or [NaN], and each operation rounds its exact result to the
    nearest binary64 value, ties to even.  The two zeros are not told
    apart: the program only compares and subtracts them.  The theorem
    [getRanges_exact] below states when the two readings agree. *)

Module Binary64.

Inductive number : Type :=
| Finite (z : Z)
| Infinity (negative : bool)
| NaN.

(** The nearest binary64 value to a natural number [n], as an integer:
    [n] itself below 2^53, else its 53 leading bits, rounded to nearest
    with ties to even, times the power of two they stand at. *)
Definition roundMagnitude (n : Z) : Z :=
  if n <? 2 ^ 53 then n
  else
    let e := Z.log2 n - 52 in
    let q := Z.shiftr n e in
    let rest := n - Z.shiftl q e in
    let half := 2 ^ (e - 1) in
    let q' := if (half <? rest) || ((rest =? half) && Z.odd q) then q + 1 else q in
    Z.shiftl q' e.

(** [Number.MAX_VALUE] *)
Definition MAX_VALUE : Z := (2 ^ 53 - 1) * 2 ^ 971.

(** The binary64 value of an exact integer result. *)
Definition round (z : Z) : number :=
  let m := roundMagnitude (Z.abs z) in
  if MAX_VALUE <? m then Infinity (z <? 0) else Finite (Z.sgn z * m).

Definition neg (a : number) : number :=
  match a with
  | Finite z => Finite (- z)
  | Infinity negative => Infinity (negb negative)
  | NaN => NaN
  end.

(** [a + b] *)
Definition add (a b : number) : number :=
  match a, b with
  | Finite x, Finite y => round (x + y)
  | Finite _, Infinity negative => Infinity negative
  | Infinity negative, Finite _ => Infinity negative
  | Infinity s, Infinity t => if Bool.eqb s t then Infinity s else NaN
  | _, _ => NaN
  end.

(** [a - b] *)
Definition sub (a b : number) : number := add a (neg b).

(** [a < b]; false as soon as one side is NaN. *)
Definition ltb (a b : number) : bool :=
  match a, b with
  | Finite x, Finite y => x <? y
  | Finite _, Infinity negative => negb negative
  | Infinity negative, Finite _ => negative
  | Infinity s, Infinity t => s && negb t
  | _, _ => false
  end.

(** [a > b] *)
Definition gtb (a b : number) : bool := ltb b a.

(** [Math.max(a, b)] and [Math.min(a, b)] *)
Definition max (a b : number) : number :=
  match a, b with
  | NaN, _ => NaN
  | _, NaN => NaN
  | _, _ => if ltb a b then b else a
  end.

Definition min (a b : number) : number :=
  match a, b with
  | NaN, _ => NaN
  | _, NaN => NaN
  | _, _ => if ltb b a then b else a
  end.

(** A Number as a condition: every Number but 0 and NaN. *)
Definition truthy (a : number) : bool :=
  match a with
  | Finite z => negb (z =? 0)
  | Infinity _ => true
  | NaN => false
  end.

(** [Number(s)] for a string of decimal digits: the binary64 value
    nearest to the number the digits denote. *)
Definition Number (s : string) : number := round (JS.Number s).

Record ByteRange := { start : number; end_ : number }.

Record Ranges := {
  byteRangeSet : list ByteRange;
  length : number
}.

(** *** The scorer, lines 237-272 *)

Record Score := {
  POINT_SUM : Z;
  MULTIPLICATOR : Q;
  check : ByteRange
}.

Definition scoreStep (st : Score) (index : nat) (value : ByteRange) : Score :=
  let sum0 := POINT_SUM st in
  let sum1 := if gtb (start value) (end_ value)
              then sum0 + POINT_OF_NOT_SATISFABLE else sum0 in
  let sum2 := if ltb (sub (end_ value) (start value)) (Finite SMALL_RANGE)
              then sum1 + POINT_SMALL_RANGE else sum1 in
  let prev := check st in
  let mult := if (0 <? index)%nat && ltb (end_ prev) (start value)
              then POINT_NOT_SORTED_MULTIPLICATOR else MULTIPLICATOR st in
  let sum3 := if (0 <? index)%nat
                 && ltb (sub (max (end_ prev) (end_ value))
                             (min (start prev) (start value)))
                        (add (sub (end_ prev) (start prev))
                             (sub (end_ value) (start value)))
              then sum2 + POINT_CROSS_RANGE else sum2 in
  {| POINT_SUM := sum3; MULTIPLICATOR := mult; check := value |}.

Fixpoint scoreFrom (index : nat) (values : list ByteRange) (st : Score) : Score :=
  match values with
  | [] => st
  | value :: rest => scoreFrom (S index) rest (scoreStep st index value)
  end.

Definition scoreOf (ranges : list ByteRange) : option Score :=
  match ranges with
  | [] => None
  | first :: _ =>
      Some (scoreFrom 0 ranges {| POINT_SUM := 0; MULTIPLICATOR := 1; check := first |})
  end.

Definition isDenialOfServiceAttacks (ranges : list ByteRange) : bool :=
  match scoreOf ranges with
  | Some st =>
      Qle_bool (inject_Z POINT_OF_NOT_SATISFABLE)
               (inject_Z (POINT_SUM st) * MULTIPLICATOR st)%Q
  | None => false
  end.

(** *** The grammar, lines 192-235 *)

(** [start ? Number(start) : start] *)
Definition toNumber (group : string) : option number :=
  match group with
  | EmptyString => None
  | _ => Some (Number group)
  end.

(** The empty capture as an operand of [-] counts as 0. *)
Definition operand (x : option number) : number := default (Finite 0) x.

(** Lines 209-217.  A capture that became a Number is never NaN, so it
    passes [x !== 0 && !x] only when it is still the empty string. *)
Definition expand (fileSize : number) (start0 end0 : option number) : ByteRange :=
  let '(start1, end1) :=
    match start0 with
    | None => (sub fileSize (operand end0), Some (sub fileSize (Finite 1)))
    | Some s => (s, end0)
    end in
  let end2 :=
    match end1 with
    | None => sub fileSize (Finite 1)
    | Some e => e
    end in
  {| start := start1; end_ := end2 |}.

(** Line 219. *)
Definition limit (opts : Options) (fileSize val : number) : number :=
  if correctValues opts
  then (if ltb val (Finite 0) then Finite 0
        else if gtb val (sub fileSize (Finite 1)) then sub fileSize (Finite 1) else val)
  else val.

Definition limitRange (opts : Options) (fileSize : number) (r : ByteRange) : ByteRange :=
  {| start := limit opts fileSize (start r); end_ := limit opts fileSize (end_ r) |}.

(** Lines 223-225: [(end - start + 1) > partialMaxLength] and
    [start + partialMaxLength - 1], each operation rounded. *)
Definition truncate (maxLength : number) (r : ByteRange) : ByteRange :=
  if truthy maxLength
     && gtb (add (sub (end_ r) (start r)) (Finite 1)) maxLength
  then {| start := start r; end_ := sub (add (start r) maxLength) (Finite 1) |}
  else r.

Definition parseSpec (opts : Options) (fileSize : number) (value : string)
    : result ByteRange :=
  match JS.exec value with
  | None => Throw RuntimeError
  | Some (g1, g2) =>
      Ok (truncate (round (partialMaxLength opts))
            (limitRange opts fileSize (expand fileSize (toNumber g1) (toNumber g2))))
  end.

(** Lines 205-228; [length += end - start + 1]. *)
Fixpoint parseAll (opts : Options) (fileSize : number) (values : list string)
    (acc : Ranges) : result Ranges :=
  match values with
  | [] => Ok acc
  | value :: rest =>
      r ← parseSpec opts fileSize value;
      parseAll opts fileSize rest
        {| byteRangeSet := byteRangeSet acc ++ [r];
           length := add (length acc) (add (sub (end_ r) (start r)) (Finite 1)) |}
  end.

(** [getRanges(range, fileSize, opts)]; the file size and the integer
    option [partialMaxLength] enter as the Numbers that hold them. *)
Definition getRanges (range : string) (fileSize : Z) (opts : Options) : result Ranges :=
  match JS.split "=" (JS.trim range) with
  | bytesUnit :: more =>
      if negb (String.eqb bytesUnit "bytes") then Throw ERRORS.BYTES_UNIT_NOT_VALID
      else
        match more with
        | byteRangeSetString :: _ =>
            ranges ← parseAll opts (round fileSize) (JS.split "," byteRangeSetString)
                        {| byteRangeSet := []; length := Finite 0 |};
            if preventAtack opts && isDenialOfServiceAttacks (byteRangeSet ranges)
            then Throw (withFileSize ERRORS.RANGE_NOT_SATISFABLE fileSize)
            else Ok ranges
        | [] => Throw RuntimeError
        end
  | [] => Throw RuntimeError
  end.

End Binary64.

(** A range of integers as a range of Numbers, and a returned set
    likewise. *)
Definition exactRange (r : ByteRange) : Binary64.ByteRange :=
  {| Binary64.start := Binary64.Finite (start r);
     Binary64.end_ := Binary64.Finite (end_ r) |}.

Definition exactRanges (ranges : Ranges) : Binary64.Ranges :=
  {| Binary64.byteRangeSet := map exactRange (byteRangeSet ranges);
     Binary64.length := Binary64.Finite (length ranges) |}.

Definition exactResult (r : result Ranges) : result Binary64.Ranges :=
  match r with
  | Ok ranges => Ok (exactRanges ranges)
  | Throw e => Throw e
  end.

(** ** Vocabulary of the statements *)

(** Every character of [s] satisfies [P]. *)
Fixpoint string_forallb (P : ascii -> bool) (s : string) : bool :=
  match s with
  | String c r => P c && string_forallb P r
  | EmptyString => true
  end.

(** The sum of the widths of the parts of a set. *)
Definition totalWidth (ranges : list ByteRange) : Z :=
  foldr (fun r acc => width r + acc) 0 ranges.

(** A part whose start lies after its end. *)
Definition malformed (r : ByteRange) : bool := start r >? end_ r.

(** The value of [POINT_SUM] and of [MULTIPLICATOR] when the loop of
    [isDenialOfServiceAttacks] ends; the loop of an empty set leaves them
    as initialised. *)
Definition pointSumOf (ranges : list ByteRange) : Z :=
  from_option POINT_SUM 0 (scoreOf ranges).

Definition multiplicatorOf (ranges : list ByteRange) : Q :=
  from_option MULTIPLICATOR 1%Q (scoreOf ranges).

(** The test of line 262 on two consecutive parts. *)
Definition sortTest (prev value : ByteRange) : bool :=
  end_ prev <? start value.

(** The test of line 265 on two consecutive parts. *)
Definition crossTest (prev value : ByteRange) : bool :=
  Z.max (end_ prev) (end_ value) - Z.min (start prev) (start value)
  <? (end_ prev - start prev) + (end_ value - start value).

(** How many parts of a set pass a test. *)
Definition count (test : ByteRange -> bool) (ranges : list ByteRange) : Z :=
  Z.of_nat (List.length (List.filter test ranges)).

(** How many pairs of consecutive parts pass a test, the first pair being
    [prev] and the head of the list. *)
Fixpoint countPairs (test : ByteRange -> ByteRange -> bool) (prev : ByteRange)
    (rest : list ByteRange) : Z :=
  match rest with
  | [] => 0
  | value :: rest' => (if test prev value then 1 else 0) + countPairs test value rest'
  end.

Definition consecutivePairs (test : ByteRange -> ByteRange -> bool)
    (ranges : list ByteRange) : Z :=
  match ranges with
  | [] => 0
  | first :: rest => countPairs test first rest
  end.

(** The number of bytes two parts have in common. *)
Definition sharedBytes (a b : ByteRange) : Z :=
  Z.max 0 (Z.min (end_ a) (end_ b) - Z.max (start a) (start b) + 1).

(** The range of one spec as it stands before the truncation of lines
    223-225: the captures expanded and passed through [limit]. *)
Definition untruncated (opts : Options) (fileSize : Z) (value : string) : option ByteRange :=
  match JS.exec value with
  | Some (g1, g2) =>
      Some (limitRange opts fileSize (expand fileSize (toNumber g1) (toNumber g2)))
  | None => None
  end.

(** The empty accumulator of [getRanges]. *)
Definition noRanges : Ranges := {| byteRangeSet := []; length := 0 |}.

(** A file of ten bytes served as [/a.txt], a boundary as [uuid4()]
    returns them, and requests for the file. *)
Definition sampleSize : Z.of_nat (String.length "0123456789") <= MAX_SAFE_INTEGER :=
  fun H : (Z.of_nat (String.length "0123456789") ?= MAX_SAFE_INTEGER) = Gt =>
    eq_ind Lt (fun c => match c with Gt => False | _ => True end) I Gt H.

Definition sampleFile : File :=
  {| fileName := "a.txt"; fileExtension := ".txt"; content := "0123456789";
     extensionShape := eq_refl; sizeSafe := sampleSize |}.

Definition sampleFiles : gmap string File := {[ "/a.txt" := sampleFile ]}.

Definition sampleBoundary : string := "1b9d6bcd-bbfd-4b2d-9b5d-ab8dfbbd4bed".

Definition sampleRequest (verb rangeHeader : string) : Request :=
  {| method := verb; url := "/a.txt"; range := Some rangeHeader |}.

(** The body of a multipart response as the wire format describes it:
    each header block followed by the bytes of its part, then the closing
    boundary. *)
Fixpoint multipartBody (headers streams : list string) (endBoundary : string) : string :=
  match headers, streams with
  | header :: headers', stream :: streams' =>
      header ++ stream ++ multipartBody headers' streams' endBoundary
  | _, _ => endBoundary
  end.

(** The number of bytes of a sequence of strings. *)
Definition totalLength (strings : list string) : Z :=
  foldr (fun s acc => Z.of_nat (String.length s) + acc) 0 strings.

(** The bytes of an inclusive span that lies inside the file. *)
Definition span (file : File) (r : ByteRange) : string :=
  substring (Z.to_nat (start r)) (Z.to_nat (width r)) (content file).

(** A range inside a file of [fileSize] bytes. *)
Definition inside (fileSize : Z) (r : ByteRange) : Prop :=
  0 <= start r /\ end_ r < fileSize.

(** A string without the character [-]. *)
Definition noDash (s : string) : bool :=
  string_forallb (fun c => negb (Ascii.eqb c "-")) s.

(** The first character of [s], if any, is not a digit. *)
Definition noLeadingDigit (s : string) : bool :=
  match s with
  | String c _ => negb (JS.is_digit c)
  | EmptyString => true
  end.

(** The last character of [s], if any, is not a digit. *)
Fixpoint noTrailingDigit (s : string) : bool :=
  match s with
  | EmptyString => true
  | String c r =>
      match r with
      | EmptyString => negb (JS.is_digit c)
      | _ => noTrailingDigit r
      end
  end.

(** The same request made with another method. *)
Definition withMethod (verb : string) (request : Request) : Request :=
  {| method := verb; url := url request; range := range request |}.

(** The same request without its [Range] header. *)
Definition withoutRange (request : Request) : Request :=
  {| method := method request; url := url request; range := None |}.

(** Every pair of consecutive parts passes a test. *)
Fixpoint allPairsFrom (test : ByteRange -> ByteRange -> bool) (prev : ByteRange)
    (rest : list ByteRange) : bool :=
  match rest with
  | [] => true
  | value :: rest' => test prev value && allPairsFrom test value rest'
  end.

Definition allPairs (test : ByteRange -> ByteRange -> bool) (ranges : list ByteRange) : bool :=
  match ranges with
  | [] => true
  | first :: rest => allPairsFrom test first rest
  end.

(** The status codes [httpListener] answers with. *)
Definition statusCodes : list Z := [200; 206; 404; 405; 416; 500].

(** The comma-separated specs of a header, when it has a [=]. *)
Definition specsOf (range : string) : list string :=
  match JS.split "=" (JS.trim range) with
  | _ :: byteRangeSetString :: _ => JS.split "," byteRangeSetString
  | _ => []
  end.

(** The numbers a spec holds are at most [bound]. *)
Definition groupsWithin (bound : Z) (value : string) : bool :=
  match JS.exec value with
  | Some (g1, g2) => (JS.Number g1 <=? bound) && (JS.Number g2 <=? bound)
  | None => true
  end.

(** A sufficient condition for [getRanges] to compute on integers below
    2^53 only, where binary64 arithmetic is exact: the file size, the
    maximum chunk length and every number of the header are between 0 and
    [bound], and [bound] is small enough for the differences and the sums
    the code forms, including the sum [length] over all the specs. *)
Definition exactArithmetic (bound : Z) (range : string) (fileSize : Z) (opts : Options)
    : bool :=
  (0 <=? fileSize) && (fileSize <=? bound)
  && (0 <=? partialMaxLength opts) && (partialMaxLength opts <=? bound)
  && forallb (groupsWithin bound) (specsOf range)
  && ((Z.of_nat (List.length (specsOf range)) + 2) * (2 * bound + 2) <? 2 ^ 53).

(** The state of the scorer on integers as a state on Numbers. *)
Definition exactScore (st : Score) : Binary64.Score :=
  {| Binary64.POINT_SUM := POINT_SUM st;
     Binary64.MULTIPLICATOR := MULTIPLICATOR st;
     Binary64.check := exactRange (check st) |}.

(** A range whose ends are within [bound] of 0, as [getRanges] leaves
    them when the numbers of the header are. *)
Definition rangeWithin (bound : Z) (r : ByteRange) : Prop :=
  - bound - 1 <= start r <= bound /\ - bound - 1 <= end_ r <= bound.

(** * Facts about the primitives *)

Section Primitives.
Import JS.

Lemma digit_is_plain (c : ascii) :
  is_digit c = true ->
  is_space c = false /\ c <> "="%char /\ c <> ","%char /\ c <> "-"%char.
Proof.
  destruct c as [[] [] [] [] [] [] [] []]; vm_compute; intros H;
    try discriminate H; repeat split; congruence.
Qed.

Lemma string_of_uint_digits (d : Decimal.uint) :
  string_forallb is_digit (NilEmpty.string_of_uint d) = true.
Proof. induction d; simpl; auto. Qed.

Lemma Number_acc_of_uint_acc (d : Decimal.uint) (acc : positive) :
  Number_acc (NilEmpty.string_of_uint d) (Z.pos acc) = Z.pos (Pos.of_uint_acc d acc).
Proof.
  revert acc.
  induction d; intros acc; simpl; try reflexivity;
    rewrite <- IHd; f_equal; vm_compute digit_value; lia.
Qed.

Lemma Number_string_of_uint (d : Decimal.uint) :
  Number (NilEmpty.string_of_uint d) = Z.of_N (Pos.of_uint d).
Proof.
  unfold Number.
  induction d; simpl; try reflexivity; try exact IHd;
    rewrite <- Number_acc_of_uint_acc; f_equal.
Qed.

Lemma toString_nonneg (n : Z) :
  0 <= n -> toString n = NilEmpty.string_of_uint (N.to_uint (Z.to_N n)).
Proof. destruct n; intros H; try reflexivity; lia. Qed.

Lemma Number_toString (n : Z) : 0 <= n -> Number (toString n) = n.
Proof.
  intros H. rewrite toString_nonneg by assumption.
  rewrite Number_string_of_uint.
  change (Pos.of_uint (N.to_uint (Z.to_N n))) with (N.of_uint (N.to_uint (Z.to_N n))).
  rewrite DecimalN.Unsigned.of_to. lia.
Qed.

Lemma toString_digits (n : Z) : 0 <= n -> string_forallb is_digit (toString n) = true.
Proof.
  intros H. rewrite toString_nonneg by assumption. apply string_of_uint_digits.
Qed.

Lemma toString_nonempty (n : Z) : toString n <> EmptyString.
Proof.
  destruct n as [|p|p]; simpl; try discriminate.
  unfold toString. simpl. intros H.
  apply (DecimalPos.Unsigned.to_uint_nonnil p).
  destruct (Pos.to_uint p); simpl in H; try discriminate; reflexivity.
Qed.

End Primitives.

(** * Facts about the string operations of [getRanges] *)

Section Strings.
Import JS.

Lemma forallb_weaken (P Q : ascii -> bool) (s : string) :
  (forall c, P c = true -> Q c = true) ->
  string_forallb P s = true -> string_forallb Q s = true.
Proof.
  intros HPQ. induction s as [|c r IH]; simpl; [reflexivity|].
  intros [Hc Hr]%andb_true_iff. rewrite (HPQ c Hc). simpl. auto.
Qed.

Lemma forallb_app (P : ascii -> bool) (s t : string) :
  string_forallb P (s ++ t) = string_forallb P s && string_forallb P t.
Proof. induction s as [|c r IH]; simpl; [reflexivity|]. rewrite IH. apply andb_assoc. Qed.

Lemma span_digits_all (ds : string) :
  string_forallb is_digit ds = true -> span_digits ds = (ds, EmptyString).
Proof.
  induction ds as [|c r IH]; simpl; [reflexivity|].
  intros [Hc Hr]%andb_true_iff. rewrite Hc, (IH Hr). reflexivity.
Qed.

Lemma span_digits_dash (ds r : string) :
  string_forallb is_digit ds = true ->
  span_digits (ds ++ String "-" r) = (ds, String "-" r).
Proof.
  induction ds as [|c ds' IH]; simpl; [reflexivity|].
  intros [Hc Hr]%andb_true_iff. rewrite Hc, (IH Hr). reflexivity.
Qed.

Lemma exec_unfold (s : string) :
  exec s = match exec_here s with
           | Some groups => Some groups
           | None => match s with String _ r => exec r | EmptyString => None end
           end.
Proof. destruct s; reflexivity. Qed.

(** The suffix form [-N]: an empty first group. *)
Lemma exec_suffix (ds : string) :
  string_forallb is_digit ds = true ->
  exec (String "-" ds) = Some (EmptyString, ds).
Proof.
  intros H. rewrite exec_unfold. unfold exec_here.
  change (span_digits (String "-" ds)) with (EmptyString, String "-" ds).
  cbv beta iota zeta. rewrite (span_digits_all ds H). reflexivity.
Qed.

(** The open-ended form [S-]: an empty second group. *)
Lemma exec_open (ds : string) :
  string_forallb is_digit ds = true ->
  exec (ds ++ "-") = Some (ds, EmptyString).
Proof.
  intros H. rewrite exec_unfold. unfold exec_here.
  rewrite (span_digits_dash ds EmptyString H). reflexivity.
Qed.

Lemma split_absent (sep : ascii) (s : string) :
  string_forallb (fun c => negb (Ascii.eqb c sep)) s = true -> split sep s = [s].
Proof.
  induction s as [|c r IH]; simpl; [reflexivity|].
  intros [Hc Hr]%andb_true_iff. apply negb_true_iff in Hc.
  rewrite Hc, (IH Hr). reflexivity.
Qed.

Lemma trimEnd_id (s : string) :
  string_forallb (fun c => negb (is_space c)) s = true -> trimEnd s = s.
Proof.
  induction s as [|c r IH]; simpl; [reflexivity|].
  intros [Hc Hr]%andb_true_iff. apply negb_true_iff in Hc.
  rewrite (IH Hr), Hc. destruct r; reflexivity.
Qed.

Lemma trim_id (s : string) :
  string_forallb (fun c => negb (is_space c)) s = true -> trim s = s.
Proof.
  intros H. unfold trim.
  assert (trimStart s = s) as ->.
  { destruct s as [|c r]; simpl in *; [reflexivity|].
    apply andb_true_iff in H as [Hc _]. apply negb_true_iff in Hc.
    now rewrite Hc. }
  now apply trimEnd_id.
Qed.

(** Header [bytes=<spec>] with a single spec written with digits and
    dashes only: the unit is [bytes] and the spec list has one element. *)
Lemma header_pieces (spec : string) :
  string_forallb (fun c => is_digit c || Ascii.eqb c "-") spec = true ->
  split "=" (trim ("bytes=" ++ spec)) = ["bytes"; spec]
  /\ split "," spec = [spec].
Proof.
  intros H.
  assert (forall c, is_digit c || Ascii.eqb c "-" = true ->
            negb (is_space c) = true /\ negb (Ascii.eqb c "=") = true
            /\ negb (Ascii.eqb c ",") = true) as Hplain.
  { intros c. destruct c as [[] [] [] [] [] [] [] []]; vm_compute; intros Hc;
      try discriminate Hc; repeat split; reflexivity. }
  split.
  - rewrite trim_id.
    + simpl. rewrite split_absent; [reflexivity|].
      eapply forallb_weaken; [|exact H]. intros c Hc. apply (Hplain c Hc).
    + simpl. eapply forallb_weaken; [|exact H]. intros c Hc. apply (Hplain c Hc).
  - apply split_absent. eapply forallb_weaken; [|exact H].
    intros c Hc. apply (Hplain c Hc).
Qed.

End Strings.

(** * The scorer in closed form *)

Section Scorer.

Lemma count_nonneg (test : ByteRange -> bool) (ranges : list ByteRange) :
  0 <= count test ranges.
Proof. unfold count. lia. Qed.

Lemma count_cons (test : ByteRange -> bool) (r : ByteRange) (ranges : list ByteRange) :
  count test (r :: ranges) = (if test r then 1 else 0) + count test ranges.
Proof. unfold count. simpl. destruct (test r); simpl; lia. Qed.

Lemma countPairs_nonneg test prev rest : 0 <= countPairs test prev rest.
Proof.
  revert prev. induction rest as [|v rest IH]; intros prev; simpl; [lia|].
  specialize (IH v). destruct (test prev v); lia.
Qed.

(** One turn of the loop at index 0: only the two tests on the part
    itself are made. *)
Lemma scoreStep_first (st : Score) (value : ByteRange) :
  scoreStep st 0 value =
  {| POINT_SUM := POINT_SUM st + (if malformed value then 10 else 0)
                  + (if width value <=? 65536 then 2 else 0);
     MULTIPLICATOR := MULTIPLICATOR st;
     check := value |}.
Proof.
  unfold scoreStep, malformed, width, SMALL_RANGE, POINT_OF_NOT_SATISFABLE,
    POINT_SMALL_RANGE. simpl.
  f_equal.
  destruct (start value >? end_ value);
    destruct (Z.ltb_spec (end_ value - start value) 65536);
    destruct (Z.leb_spec (end_ value - start value + 1) 65536); lia.
Qed.

(** One turn of the loop at a later index. *)
Lemma scoreStep_next (st : Score) (index : nat) (value : ByteRange) :
  scoreStep st (S index) value =
  {| POINT_SUM := POINT_SUM st + (if malformed value then 10 else 0)
                  + (if width value <=? 65536 then 2 else 0)
                  + (if crossTest (check st) value then 3 else 0);
     MULTIPLICATOR := if sortTest (check st) value
                      then POINT_NOT_SORTED_MULTIPLICATOR else MULTIPLICATOR st;
     check := value |}.
Proof.
  unfold scoreStep, malformed, width, crossTest, sortTest, SMALL_RANGE,
    POINT_OF_NOT_SATISFABLE, POINT_SMALL_RANGE, POINT_CROSS_RANGE.
  cbn [Nat.ltb Nat.leb andb].
  f_equal.
  destruct (start value >? end_ value);
    destruct (Z.ltb_spec (end_ value - start value) 65536);
    destruct (Z.leb_spec (end_ value - start value + 1) 65536);
    destruct (_ <? _); lia.
Qed.

Lemma scoreFrom_next_sum (index : nat) (rest : list ByteRange) (st : Score) :
  POINT_SUM (scoreFrom (S index) rest st) =
  POINT_SUM st + 10 * count malformed rest
  + 2 * count (fun r => width r <=? 65536) rest
  + 3 * countPairs crossTest (check st) rest.
Proof.
  revert index st. induction rest as [|v rest IH]; intros index st.
  - unfold count. simpl. lia.
  - cbn [scoreFrom]. rewrite IH, scoreStep_next, !count_cons.
    cbn [POINT_SUM check countPairs].
    destruct (malformed v), (width v <=? 65536), (crossTest (check st) v); lia.
Qed.

Lemma scoreFrom_next_mult (index : nat) (rest : list ByteRange) (st : Score) :
  MULTIPLICATOR (scoreFrom (S index) rest st) =
  if 0 <? countPairs sortTest (check st) rest
  then POINT_NOT_SORTED_MULTIPLICATOR else MULTIPLICATOR st.
Proof.
  revert index st. induction rest as [|v rest IH]; intros index st.
  - reflexivity.
  - cbn [scoreFrom]. rewrite IH, scoreStep_next.
    cbn [MULTIPLICATOR check countPairs].
    pose proof (countPairs_nonneg sortTest v rest).
    destruct (sortTest (check st) v);
      destruct (Z.ltb_spec 0 (countPairs sortTest v rest));
      destruct (Z.ltb_spec 0 (1 + countPairs sortTest v rest));
      destruct (Z.ltb_spec 0 (0 + countPairs sortTest v rest));
      try reflexivity; lia.
Qed.

(** [POINT_SUM] after the loop: ten points for each malformed part, two
    for each part of at most 65536 bytes, three for each pair of
    consecutive parts that passes the test of line 265. *)
Lemma pointSumOf_closed (ranges : list ByteRange) :
  pointSumOf ranges =
  10 * count malformed ranges
  + 2 * count (fun r => width r <=? 65536) ranges
  + 3 * consecutivePairs crossTest ranges.
Proof.
  destruct ranges as [|first rest]; [reflexivity|].
  unfold pointSumOf, scoreOf. cbn [from_option scoreFrom consecutivePairs].
  rewrite scoreFrom_next_sum, scoreStep_first, !count_cons.
  cbn [POINT_SUM check].
  destruct (malformed first), (width first <=? 65536); lia.
Qed.

(** [MULTIPLICATOR] after the loop: 1.5 as soon as one pair of
    consecutive parts passes the test of line 262, else 1. *)
Lemma multiplicatorOf_closed (ranges : list ByteRange) :
  multiplicatorOf ranges =
  if 0 <? consecutivePairs sortTest ranges
  then POINT_NOT_SORTED_MULTIPLICATOR else 1%Q.
Proof.
  destruct ranges as [|first rest]; [reflexivity|].
  unfold multiplicatorOf, scoreOf. cbn [from_option scoreFrom consecutivePairs].
  rewrite scoreFrom_next_mult, scoreStep_first. reflexivity.
Qed.

Lemma isDenialOfServiceAttacks_score (ranges : list ByteRange) :
  isDenialOfServiceAttacks ranges =
  Qle_bool (inject_Z POINT_OF_NOT_SATISFABLE)
           (inject_Z (pointSumOf ranges) * multiplicatorOf ranges).
Proof.
  unfold isDenialOfServiceAttacks, pointSumOf, multiplicatorOf, finalScore.
  destruct (scoreOf ranges); reflexivity.
Qed.

(** With the multiplier at 1 or 1.5, a sum of ten points is enough. *)
Lemma ten_points_reject (ranges : list ByteRange) :
  10 <= pointSumOf ranges -> isDenialOfServiceAttacks ranges = true.
Proof.
  intros H. rewrite isDenialOfServiceAttacks_score, multiplicatorOf_closed.
  apply Qle_bool_iff.
  destruct (0 <? consecutivePairs sortTest ranges);
    unfold Qle, POINT_NOT_SORTED_MULTIPLICATOR, POINT_OF_NOT_SATISFABLE; simpl; lia.
Qed.

Lemma count_exists (test : ByteRange -> bool) (ranges : list ByteRange) :
  Exists (fun r => test r = true) ranges -> 1 <= count test ranges.
Proof.
  induction 1 as [r l Hr | r l _ IH]; rewrite count_cons.
  - rewrite Hr. pose proof (count_nonneg test l). lia.
  - destruct (test r); lia.
Qed.

Lemma malformed_reject (ranges : list ByteRange) :
  Exists (fun r => malformed r = true) ranges ->
  isDenialOfServiceAttacks ranges = true.
Proof.
  intros H. apply ten_points_reject. rewrite pointSumOf_closed.
  pose proof (count_exists _ _ H).
  pose proof (count_nonneg (fun r => width r <=? 65536) ranges).
  assert (0 <= consecutivePairs crossTest ranges).
  { destruct ranges; simpl; [lia | apply countPairs_nonneg]. }
  lia.
Qed.

End Scorer.

(** * The loop of [getRanges] *)

Section Grammar.

Lemma totalWidth_app (l1 l2 : list ByteRange) :
  totalWidth (l1 ++ l2)%list = totalWidth l1 + totalWidth l2.
Proof. induction l1 as [|r l1 IH]; simpl; [lia|]. unfold totalWidth in *. simpl. lia. Qed.

Lemma parseSpec_untruncated opts fileSize value r :
  parseSpec opts fileSize value = Ok r <->
  exists p, untruncated opts fileSize value = Some p /\ r = truncate opts p.
Proof.
  unfold parseSpec, untruncated.
  destruct (JS.exec value) as [[g1 g2]|]; split.
  - intros [= <-]. eauto.
  - intros (p & [= <-] & ->). reflexivity.
  - discriminate.
  - intros (p & [=] & _).
Qed.

(** What the loop adds to its accumulator. *)
Lemma parseAll_inv opts fileSize values acc res :
  parseAll opts fileSize values acc = Ok res ->
  exists new,
    Forall2 (fun value r => parseSpec opts fileSize value = Ok r) values new
    /\ byteRangeSet res = (byteRangeSet acc ++ new)%list
    /\ length res = length acc + totalWidth new.
Proof.
  revert acc res. induction values as [|value rest IH]; intros acc res; simpl.
  - intros [= <-]. exists []. rewrite app_nil_r. repeat split; [constructor | simpl; lia].
  - destruct (parseSpec opts fileSize value) as [r|e] eqn:Hr; simpl; [|discriminate].
    intros H. apply IH in H as (new & Hnew & Hset & Hlen). simpl in Hset, Hlen.
    exists (r :: new). repeat split.
    + constructor; assumption.
    + rewrite Hset, <- app_assoc. reflexivity.
    + rewrite Hlen. unfold totalWidth, width. simpl. lia.
Qed.

(** A header [getRanges] accepts: its unit is [bytes], every spec parsed,
    and the scorer, if consulted, let the set through. *)
Lemma getRanges_inv range fileSize opts ranges :
  getRanges range fileSize opts = Ok ranges ->
  exists byteRangeSetString more,
    JS.split "=" (JS.trim range) = "bytes" :: byteRangeSetString :: more
    /\ parseAll opts fileSize (JS.split "," byteRangeSetString) noRanges = Ok ranges
    /\ preventAtack opts && isDenialOfServiceAttacks (byteRangeSet ranges) = false.
Proof.
  unfold getRanges.
  destruct (JS.split "=" (JS.trim range)) as [|bytesUnit more]; [discriminate|].
  destruct (String.eqb_spec bytesUnit "bytes") as [->|]; simpl; [|discriminate].
  destruct more as [|byteRangeSetString more]; [discriminate|].
  fold noRanges.
  destruct (parseAll opts fileSize (JS.split "," byteRangeSetString) noRanges)
    as [parsed|e] eqn:Hparsed; simpl; [|discriminate].
  destruct (preventAtack opts && isDenialOfServiceAttacks (byteRangeSet parsed)) eqn:Hdos;
    [discriminate|].
  intros [= <-]. eauto.
Qed.

(** With the scorer enabled, an accepted set has no malformed range. *)
Lemma getRanges_well_formed range fileSize opts ranges :
  preventAtack opts = true ->
  getRanges range fileSize opts = Ok ranges ->
  Forall (fun r => start r <= end_ r) (byteRangeSet ranges).
Proof.
  intros Hprevent Hok.
  apply getRanges_inv in Hok as (specs & more & _ & _ & Hdos).
  rewrite Hprevent in Hdos. simpl in Hdos.
  apply Forall_forall. intros r Hin.
  destruct (Z.le_gt_cases (start r) (end_ r)) as [|Hbad]; [assumption|].
  rewrite malformed_reject in Hdos; [discriminate|].
  apply Exists_exists. exists r. split; [assumption|].
  unfold malformed. apply Z.gtb_lt. lia.
Qed.


End Grammar.

(** * The range grammar and its policy *)

Section Claims_grammar.
Import JS.

(** C4.  With the scorer enabled ([preventAtack], the default), every
    range of a set that [getRanges] returns has [start <= end]; and a
    header with unit [bytes] whose specs all parse, one of them to a range
    with [start > end], is not returned with that range removed: it is
    refused with [RANGE_NOT_SATISFABLE] carrying the file size. *)
Theorem accepted_ranges_well_formed (range : string) (fileSize : Z) (opts : Options) :
  preventAtack opts = true ->
  (forall ranges,
      getRanges range fileSize opts = Ok ranges ->
      Forall (fun r => start r <= end_ r) (byteRangeSet ranges))
  /\ (forall byteRangeSetString more parsed,
         split "=" (trim range) = "bytes" :: byteRangeSetString :: more ->
         parseAll opts fileSize (split "," byteRangeSetString) noRanges = Ok parsed ->
         Exists (fun r => start r > end_ r) (byteRangeSet parsed) ->
         getRanges range fileSize opts
         = Throw (withFileSize ERRORS.RANGE_NOT_SATISFABLE fileSize)).
Proof.
  intros Hprevent. split.
  - intros ranges Hok. now apply (getRanges_well_formed range fileSize opts).
  - intros specs more parsed Hsplit Hparsed Hbad.
    unfold getRanges. rewrite Hsplit. simpl. fold noRanges. rewrite Hparsed. simpl.
    rewrite Hprevent, malformed_reject; [reflexivity|].
    eapply Exists_impl; [exact Hbad|].
    intros r Hr. simpl in Hr. unfold malformed. apply Z.gtb_lt. lia.
Qed.

Lemma accepted_ranges_well_formed_witness :
  Forall (fun r => start r <= end_ r)
         [{| start := 0; end_ := 5 |}; {| start := 999; end_ := 999 |}]
  /\ getRanges "bytes=0-5,7-2" 1000 defaultOptions
     = Throw (withFileSize ERRORS.RANGE_NOT_SATISFABLE 1000).
Proof.
  split.
  - apply (proj1 (accepted_ranges_well_formed "bytes=0-5,-1" 1000 defaultOptions eq_refl)
             {| byteRangeSet := [{| start := 0; end_ := 5 |};
                                 {| start := 999; end_ := 999 |}];
                length := 7 |}).
    vm_compute. reflexivity.
  - apply (proj2 (accepted_ranges_well_formed "bytes=0-5,7-2" 1000 defaultOptions eq_refl)
             "0-5,7-2" []
             {| byteRangeSet := [{| start := 0; end_ := 5 |};
                                 {| start := 7; end_ := 2 |}];
                length := 2 |}).
    + vm_compute. reflexivity.
    + vm_compute. reflexivity.
    + apply Exists_cons_tl, Exists_cons_hd. simpl. lia.
Defined.


End Claims_grammar.

(** * Suffix and open-ended specs *)

Section Claims_suffix.
Import JS.

Lemma toNumber_toString (n : Z) : 0 <= n -> toNumber (toString n) = Some n.
Proof.
  intros H. unfold toNumber.
  destruct (toString n) eqn:E.
  - now apply toString_nonempty in E.
  - rewrite <- E, Number_toString by assumption. reflexivity.
Qed.

Lemma limit_inside opts fileSize val :
  0 <= val <= fileSize - 1 -> limit opts fileSize val = val.
Proof.
  intros H. unfold limit. destruct (correctValues opts); [|reflexivity].
  destruct (Z.ltb_spec val 0); [lia|].
  destruct (Z.gtb_spec val (fileSize - 1)); [lia|reflexivity].
Qed.

Lemma truncate_fits opts r :
  partialMaxLength opts = 0 \/ width r <= partialMaxLength opts ->
  truncate opts r = r.
Proof.
  unfold truncate, width. intros [->|H]; [reflexivity|].
  destruct (Z.gtb_spec (end_ r - start r + 1) (partialMaxLength opts)); [lia|].
  now rewrite andb_false_r.
Qed.

(** A single well-formed range scores at most two points. *)
Lemma single_range_accepted (r : ByteRange) :
  start r <= end_ r -> isDenialOfServiceAttacks [r] = false.
Proof.
  intros H. rewrite isDenialOfServiceAttacks_score, pointSumOf_closed, multiplicatorOf_closed.
  rewrite !count_cons. unfold count, malformed. simpl.
  destruct (Z.gtb_spec (start r) (end_ r)); [lia|].
  destruct (width r <=? 65536); reflexivity.
Qed.

Lemma digits_or_dash (n : Z) :
  0 <= n -> string_forallb (fun c => is_digit c || Ascii.eqb c "-") (toString n) = true.
Proof.
  intros H. eapply forallb_weaken; [|apply (toString_digits n H)].
  intros c ->. reflexivity.
Qed.

(** [getRanges] on a header with one spec that parses to a well-formed
    range inside the file which needs no truncation. *)
Lemma getRanges_single (spec : string) (fileSize : Z) (opts : Options) (g1 g2 : string)
    (r : ByteRange) :
  string_forallb (fun c => is_digit c || Ascii.eqb c "-") spec = true ->
  exec spec = Some (g1, g2) ->
  expand fileSize (toNumber g1) (toNumber g2) = r ->
  0 <= start r <= end_ r -> end_ r <= fileSize - 1 ->
  partialMaxLength opts = 0 \/ width r <= partialMaxLength opts ->
  getRanges ("bytes=" ++ spec) fileSize opts
  = Ok {| byteRangeSet := [r]; length := width r |}.
Proof.
  intros Hspec Hexec Hexpand Hwf Hin Hfits.
  destruct (header_pieces spec Hspec) as [Hunit Hlist].
  unfold getRanges. rewrite Hunit. cbn [String.eqb Ascii.eqb Bool.eqb negb andb].
  rewrite Hlist. cbn [parseAll]. unfold parseSpec. rewrite Hexec, Hexpand.
  assert (limitRange opts fileSize r = r) as ->.
  { unfold limitRange. rewrite !limit_inside by lia. now destruct r. }
  rewrite (truncate_fits opts r Hfits).
  cbn [mbind result_bind byteRangeSet length app].
  rewrite (single_range_accepted r) by lia. rewrite andb_false_r.
  unfold width. do 2 f_equal.
Qed.

(** C6, as the code has it.  For a file of [fileSize > 0] bytes: the
    suffix spec [-N] with [0 < N <= fileSize] yields the single range
    [fileSize - N .. fileSize - 1], and the open-ended spec [S-] with
    [0 <= S < fileSize] yields the single range [S .. fileSize - 1],
    provided the range is not wider than the configured maximum chunk
    length (or no maximum is configured, [partialMaxLength = 0]). *)
Theorem suffix_and_open_ended (fileSize N S : Z) (opts : Options) :
  0 < fileSize ->
  (0 < N <= fileSize ->
   partialMaxLength opts = 0 \/ N <= partialMaxLength opts ->
   getRanges ("bytes=-" ++ toString N) fileSize opts
   = Ok {| byteRangeSet := [{| start := fileSize - N; end_ := fileSize - 1 |}];
           length := N |})
  /\ (0 <= S < fileSize ->
      partialMaxLength opts = 0 \/ fileSize - S <= partialMaxLength opts ->
      getRanges ("bytes=" ++ toString S ++ "-") fileSize opts
      = Ok {| byteRangeSet := [{| start := S; end_ := fileSize - 1 |}];
              length := fileSize - S |}).
Proof.
  intros Hsize. split.
  - intros HN Hfits.
    change ("bytes=-" ++ toString N) with ("bytes=" ++ String "-" (toString N)).
    rewrite (getRanges_single (String "-" (toString N)) fileSize opts
               EmptyString (toString N)
               {| start := fileSize - N; end_ := fileSize - 1 |}).
    + unfold width. simpl. do 2 f_equal. lia.
    + simpl. apply digits_or_dash. lia.
    + apply exec_suffix, toString_digits. lia.
    + unfold expand. rewrite toNumber_toString by lia. reflexivity.
    + simpl. lia.
    + simpl. lia.
    + unfold width. simpl. destruct Hfits; [left; assumption | right; lia].
  - intros HS Hfits.
    rewrite (getRanges_single (toString S ++ "-") fileSize opts
               (toString S) EmptyString
               {| start := S; end_ := fileSize - 1 |}).
    + unfold width. simpl. do 2 f_equal. lia.
    + rewrite forallb_app, digits_or_dash by lia. reflexivity.
    + apply exec_open, toString_digits. lia.
    + unfold expand. rewrite toNumber_toString by lia. reflexivity.
    + simpl. lia.
    + simpl. lia.
    + unfold width. simpl. destruct Hfits; [left; assumption | right; lia].
Qed.

Lemma suffix_and_open_ended_witness :
  getRanges "bytes=-100" 1000 serverOptions
  = Ok {| byteRangeSet := [{| start := 900; end_ := 999 |}]; length := 100 |}
  /\ getRanges "bytes=900-" 1000 serverOptions
     = Ok {| byteRangeSet := [{| start := 900; end_ := 999 |}]; length := 100 |}.
Proof.
  split.
  - apply (proj1 (suffix_and_open_ended 1000 100 900 serverOptions ltac:(lia)));
      [lia | right; vm_compute; discriminate].
  - apply (proj2 (suffix_and_open_ended 1000 100 900 serverOptions ltac:(lia)));
      [lia | right; vm_compute; discriminate].
Defined.

(** C6 as stated fails where the range is wider than the maximum chunk
    length of the server (524288): on a file of 600000 bytes the suffix
    spec [-600000] and the open-ended spec [0-] both yield [0 .. 524287],
    not [0 .. 599999]. *)
Lemma suffix_and_open_ended_truncated :
  getRanges ("bytes=-" ++ toString 600000) 600000 serverOptions
  = Ok {| byteRangeSet := [{| start := 0; end_ := 524287 |}]; length := 524288 |}
  /\ getRanges ("bytes=" ++ toString 0 ++ "-") 600000 serverOptions
     = Ok {| byteRangeSet := [{| start := 0; end_ := 524287 |}]; length := 524288 |}
  /\ {| start := 0; end_ := 524287 |}
     <> {| start := 600000 - 600000; end_ := 600000 - 1 |}.
Proof. repeat split; try (vm_compute; reflexivity). discriminate. Qed.

End Claims_suffix.

(** * The points of the scorer *)

Section Claims_scorer.

Lemma count_app (test : ByteRange -> bool) (l1 l2 : list ByteRange) :
  count test (l1 ++ l2)%list = count test l1 + count test l2.
Proof.
  induction l1 as [|r l1 IH]; [unfold count; simpl; lia|].
  cbn [app]. rewrite !count_cons, IH. lia.
Qed.

Lemma countPairs_snoc test prev rest value :
  countPairs test prev (rest ++ [value])%list
  = countPairs test prev rest
    + (if test (default prev (last rest)) value then 1 else 0).
Proof.
  revert prev. induction rest as [|v rest IH]; intros prev.
  - simpl. lia.
  - cbn [app countPairs]. rewrite IH, last_cons.
    destruct (last rest); simpl; lia.
Qed.

(** C7, as the code has it.  Appending a part to a set adds to
    [POINT_SUM]: ten points if the part is malformed, [POINT_SMALL_RANGE]
    (two) exactly when [end - start < 65536], that is when the width of the
    part is at most 65536 bytes, and three points if the part and the one
    before it pass the test of line 265.  A part of 65537 bytes or more
    receives no small-range points. *)
Theorem small_range_points (pre : list ByteRange) (value : ByteRange) :
  pointSumOf (pre ++ [value])%list - pointSumOf pre
  = (if malformed value then POINT_OF_NOT_SATISFABLE else 0)
    + (if width value <=? 65536 then POINT_SMALL_RANGE else 0)
    + match last pre with
      | Some prev => if crossTest prev value then POINT_CROSS_RANGE else 0
      | None => 0
      end.
Proof.
  rewrite !pointSumOf_closed, !count_app, !count_cons.
  unfold count at 2 4. cbn [List.filter List.length].
  unfold POINT_OF_NOT_SATISFABLE, POINT_SMALL_RANGE, POINT_CROSS_RANGE.
  destruct pre as [|first rest].
  - simpl. destruct (malformed value), (width value <=? 65536); lia.
  - cbn [app consecutivePairs]. rewrite countPairs_snoc, last_cons.
    destruct (last rest) as [prev|]; cbn [default];
      destruct (malformed value), (width value <=? 65536), (crossTest _ value); lia.
Qed.

(** C7 as stated fails at a part of exactly 65536 bytes: it receives the
    two small-range points. *)
Lemma small_range_at_65536 :
  width {| start := 0; end_ := 65535 |} = 65536
  /\ pointSumOf [{| start := 0; end_ := 65535 |}] = POINT_SMALL_RANGE
  /\ pointSumOf [{| start := 0; end_ := 65536 |}] = 0.
Proof. repeat split. Qed.

(** For two well-formed parts the test of line 265 holds exactly when
    they have at least two bytes in common. *)
Lemma crossTest_shared (a b : ByteRange) :
  start a <= end_ a -> start b <= end_ b ->
  crossTest a b = true <-> 2 <= sharedBytes a b.
Proof.
  intros Ha Hb. unfold crossTest, sharedBytes. rewrite Z.ltb_lt. lia.
Qed.

(** C8 at [bytes=0-10,10-20]: the two parts have byte 10 in common, the
    test of line 265 fails, and the set scores the four points of two
    small parts, without [POINT_CROSS_RANGE]. *)
Theorem shared_byte_not_crossing :
  getRanges "bytes=0-10,10-20" 1000 serverOptions
  = Ok {| byteRangeSet := [{| start := 0; end_ := 10 |}; {| start := 10; end_ := 20 |}];
          length := 22 |}
  /\ sharedBytes {| start := 0; end_ := 10 |} {| start := 10; end_ := 20 |} = 1
  /\ crossTest {| start := 0; end_ := 10 |} {| start := 10; end_ := 20 |} = false
  /\ pointSumOf [{| start := 0; end_ := 10 |}; {| start := 10; end_ := 20 |}]
     = POINT_SMALL_RANGE + POINT_SMALL_RANGE.
Proof. repeat split. Qed.

(** Two well-formed consecutive parts that are out of ascending order by
    start never pass the test of line 262. *)
Lemma sortTest_descending (prev value : ByteRange) :
  start prev <= end_ prev -> start value < start prev ->
  sortTest prev value = false.
Proof. intros Hwf Hdesc. unfold sortTest. apply Z.ltb_ge. lia. Qed.

(** Two consecutive parts that pass the test of line 262 are in ascending
    order by start, when the first is well formed. *)
Lemma sortTest_ascending (prev value : ByteRange) :
  start prev <= end_ prev -> sortTest prev value = true ->
  start prev < start value.
Proof. intros Hwf H. unfold sortTest in H. apply Z.ltb_lt in H. lia. Qed.

(** C2 at [30-31,20-21,10-11,0-1] and at [0-1,10-11,20-21,30-31]: the
    set in descending order keeps the multiplier 1 and is accepted with
    eight points; the same parts in ascending order get the multiplier
    1.5 and are refused. *)
Theorem multiplier_set_by_ascending_pairs :
  multiplicatorOf [{| start := 30; end_ := 31 |}; {| start := 20; end_ := 21 |};
                   {| start := 10; end_ := 11 |}; {| start := 0; end_ := 1 |}] = 1%Q
  /\ isDenialOfServiceAttacks
       [{| start := 30; end_ := 31 |}; {| start := 20; end_ := 21 |};
        {| start := 10; end_ := 11 |}; {| start := 0; end_ := 1 |}] = false
  /\ multiplicatorOf [{| start := 0; end_ := 1 |}; {| start := 10; end_ := 11 |};
                      {| start := 20; end_ := 21 |}; {| start := 30; end_ := 31 |}]
     = POINT_NOT_SORTED_MULTIPLICATOR
  /\ isDenialOfServiceAttacks
       [{| start := 0; end_ := 1 |}; {| start := 10; end_ := 11 |};
        {| start := 20; end_ := 21 |}; {| start := 30; end_ := 31 |}] = true.
Proof. repeat split. Qed.

End Claims_scorer.

(** * Responses *)

Section Claims_responses.
Import JS.

(** C1 at [GET /a.txt] with [Range: bytes=3-7,1-5] on a file of ten
    bytes: two parts narrower than 64 KiB, the second starting before the
    first, with bytes 3 to 5 in common.  The set scores seven points with
    the multiplier still 1, it is not refused, and the response is a 206
    multipart response without a [Content-Range] header. *)
Theorem shuffled_overlapping_accepted :
  let response := httpListener sampleFiles sampleBoundary (sampleRequest "GET" "bytes=3-7,1-5") in
  let parts := [{| start := 3; end_ := 7 |}; {| start := 1; end_ := 5 |}] in
  getRanges "bytes=3-7,1-5" 10 serverOptions = Ok {| byteRangeSet := parts; length := 10 |}
  /\ pointSumOf parts = 7
  /\ multiplicatorOf parts = 1%Q
  /\ isDenialOfServiceAttacks parts = false
  /\ statusCode response = 206
  /\ headerMap response !! "Content-Range" = None
  /\ headerMap response !! "Content-Type"
     = Some (HStr ("multipart/byteranges; boundary=" ++ sampleBoundary)).
Proof. repeat split; vm_compute; reflexivity. Qed.

(** C3 at [GET /a.txt] with [Range: items=0-5]: the status is 416 with
    the message of [BYTES_UNIT_NOT_VALID], and the response carries the
    header [Content-Range: bytes */undefined]. *)
Theorem invalid_unit_content_range :
  let response := httpListener sampleFiles sampleBoundary (sampleRequest "GET" "items=0-5") in
  getRanges "items=0-5" 10 serverOptions = Throw ERRORS.BYTES_UNIT_NOT_VALID
  /\ statusCode response = 416
  /\ statusMessage response = Some "Bytes unit not valid"
  /\ headerMap response !! "Content-Range" = Some (HStr "bytes */undefined").
Proof. repeat split; vm_compute; reflexivity. Qed.

(** C5 at [GET /a.txt] with [Range: bytes=0-99999,200000-300000] on a
    file of ten bytes: the set is accepted, [Content-Length] is 200241,
    and the body, made of the two header blocks, the ten bytes the first
    stream delivers, the zero bytes the second delivers and the closing
    boundary, has 250 bytes. *)
Theorem content_length_beyond_file :
  let response := httpListener sampleFiles sampleBoundary
                    (sampleRequest "GET" "bytes=0-99999,200000-300000") in
  let parts := [{| start := 0; end_ := 99999 |}; {| start := 200000; end_ := 300000 |}] in
  let partialHeaders := partialContentHeaders parts sampleBoundary "text" 10 in
  getRanges "bytes=0-99999,200000-300000" 10 serverOptions
  = Ok {| byteRangeSet := parts; length := 200001 |}
  /\ statusCode response = 206
  /\ headerMap response !! "Content-Length" = Some (HStr "200241")
  /\ body response
     = multipartBody (headers partialHeaders) ["0123456789"; EmptyString]
         (CRLF ++ "--" ++ sampleBoundary ++ "--")
  /\ String.length (body response) = 250%nat.
Proof. repeat split; vm_compute; reflexivity. Qed.

(** The [try] block up to the call of [getRanges], for a request with a
    [Range] header on a file whose type supports ranges. *)
Lemma tryBlock_range files boundary request file rangeHeader :
  method request ∈ ["GET"; "HEAD"] ->
  files !! url request = Some file ->
  rangeSupport (getContentInfo (fileExtension file)) = true ->
  range request = Some rangeHeader -> rangeHeader <> EmptyString ->
  let contentInfo := getContentInfo (fileExtension file) in
  let fileSize := Z.of_nat (String.length (content file)) in
  let prepared :=
    setStatusCode 206
      (setHeader "Accept-Ranges" (HStr "bytes")
         (setHeader "Cache-Control" (HStr "no-cache")
            (setHeader "Content-Length" (HNum fileSize)
               (setHeader "Content-Type" (HStr (type contentInfo))
                  (setStatus 200 (Some "OK") newResponse))))) in
  tryBlock files boundary request newResponse
  = match getRanges rangeHeader fileSize serverOptions with
    | Throw e => (prepared, Some e)
    | Ok ranges =>
        if (1 <? List.length (byteRangeSet ranges))%nat
        then multiRange boundary request file contentInfo fileSize ranges prepared
        else singleRange request file fileSize ranges prepared
    end.
Proof.
  intros Hmethod Hfile Hsupport Hrange Hnonempty. unfold tryBlock.
  rewrite (bool_decide_eq_true_2 _ Hmethod), Hfile. cbn [negb].
  rewrite Hsupport, Hrange.
  destruct rangeHeader; [contradiction|]. reflexivity.
Qed.

(** C10.  For a [GET] request whose [Range] header is accepted with a
    single range, the [Content-Length] header of the response is the size
    of the whole file, as set before the header was examined; when the
    stream can be opened (the range lies between 0 and
    [MAX_SAFE_INTEGER]) the status is 206, the [Content-Range] header
    names the range and the body is the bytes of that range only. *)
Theorem single_range_content_length (files : gmap string File) (boundary : string)
    (request : Request) (file : File) (rangeHeader : string) (ranges : Ranges)
    (r : ByteRange) :
  method request = "GET" ->
  files !! url request = Some file ->
  rangeSupport (getContentInfo (fileExtension file)) = true ->
  range request = Some rangeHeader -> rangeHeader <> EmptyString ->
  getRanges rangeHeader (Z.of_nat (String.length (content file))) serverOptions = Ok ranges ->
  byteRangeSet ranges = [r] ->
  let response := httpListener files boundary request in
  let fileSize := Z.of_nat (String.length (content file)) in
  headerMap response !! "Content-Length" = Some (HNum fileSize)
  /\ (0 <= start r -> end_ r <= MAX_SAFE_INTEGER ->
      statusCode response = 206
      /\ headerMap response !! "Content-Range"
         = Some (HStr ("bytes " ++ toString (start r) ++ "-" ++ toString (end_ r)
                       ++ "/" ++ toString fileSize))
      /\ body response
         = substring (Z.to_nat (start r)) (Z.to_nat (width r)) (content file)).
Proof.
  intros Hmethod Hfile Hsupport Hrange Hnonempty Hok Hset response fileSize.
  assert (start r <= end_ r) as Hwf.
  { pose proof (getRanges_well_formed _ _ serverOptions _ eq_refl Hok) as Hall.
    rewrite Hset in Hall. now inversion Hall. }
  subst response. unfold httpListener.
  rewrite (tryBlock_range files boundary request file rangeHeader); try assumption;
    [|rewrite Hmethod; apply list_elem_of_here].
  rewrite Hok, Hset. cbn [List.length Nat.ltb Nat.leb].
  unfold singleRange. rewrite Hset, Hmethod.
  change ("GET" =? "HEAD")%string with false. cbv iota.
  unfold createReadStream.
  destruct (Z.ltb_spec (start r) 0) as [Hneg|Hpos].
  - split; [|lia]. reflexivity.
  - destruct (Z.ltb_spec (end_ r) (start r)); [lia|].
    destruct (Z.ltb_spec MAX_SAFE_INTEGER (end_ r)).
    + split; [|lia]. reflexivity.
    + split; [reflexivity|]. intros _ _. repeat split.
Qed.

Lemma single_range_content_length_witness :
  let response := httpListener sampleFiles sampleBoundary (sampleRequest "GET" "bytes=2-5") in
  headerMap response !! "Content-Length" = Some (HNum 10)
  /\ (0 <= 2 -> 5 <= MAX_SAFE_INTEGER ->
      statusCode response = 206
      /\ headerMap response !! "Content-Range" = Some (HStr "bytes 2-5/10")
      /\ body response = "2345").
Proof.
  apply (single_range_content_length sampleFiles sampleBoundary
           (sampleRequest "GET" "bytes=2-5") sampleFile "bytes=2-5"
           {| byteRangeSet := [{| start := 2; end_ := 5 |}]; length := 4 |}
           {| start := 2; end_ := 5 |});
    try (vm_compute; reflexivity).
  discriminate.
Defined.

(** Any header whose unit is not [bytes], on a file that supports
    ranges, is answered with status 416, the header
    [Content-Range: bytes */undefined] and an empty body. *)
Lemma invalid_unit_response files boundary request file rangeHeader bytesUnit more :
  method request ∈ ["GET"; "HEAD"] ->
  files !! url request = Some file ->
  rangeSupport (getContentInfo (fileExtension file)) = true ->
  range request = Some rangeHeader -> rangeHeader <> EmptyString ->
  split "=" (trim rangeHeader) = bytesUnit :: more -> bytesUnit <> "bytes" ->
  statusCode (httpListener files boundary request) = 416
  /\ headerMap (httpListener files boundary request) !! "Content-Range"
     = Some (HStr "bytes */undefined")
  /\ body (httpListener files boundary request) = EmptyString.
Proof.
  intros Hmethod Hfile Hsupport Hrange Hnonempty Hsplit Hunit.
  unfold httpListener.
  rewrite (tryBlock_range files boundary request file rangeHeader) by assumption.
  unfold getRanges. rewrite Hsplit.
  destruct (String.eqb_spec bytesUnit "bytes") as [|_]; [contradiction|].
  repeat split.
Qed.

End Claims_responses.

(** * The multipart response inside the file *)

Section Multipart.
Import JS.

Lemma length_append (s t : string) :
  String.length (s ++ t) = (String.length s + String.length t)%nat.
Proof. induction s as [|c s IH]; simpl; [reflexivity|]. now rewrite IH. Qed.

Lemma append_assoc (s t u : string) : (s ++ t) ++ u = s ++ t ++ u.
Proof.
  induction s as [|c s IH]; [reflexivity|].
  change (String c ((s ++ t) ++ u) = String c (s ++ t ++ u)). now f_equal.
Qed.

Lemma length_substring (n m : nat) (s : string) :
  (n + m <= String.length s)%nat -> String.length (substring n m s) = m.
Proof.
  revert n m. induction s as [|c s IH]; intros n m H; simpl in H.
  - assert (n = 0%nat) as -> by lia. assert (m = 0%nat) as -> by lia. reflexivity.
  - destruct n as [|n].
    + destruct m as [|m]; [reflexivity|]. simpl. rewrite (IH 0%nat m) by lia. reflexivity.
    + simpl. apply IH. lia.
Qed.

Lemma span_length (file : File) (r : ByteRange) :
  start r <= end_ r -> inside (Z.of_nat (String.length (content file))) r ->
  Z.of_nat (String.length (span file r)) = width r.
Proof.
  intros Hwf [Hlo Hhi]. unfold span, width in *.
  rewrite length_substring; lia.
Qed.

Lemma createReadStreams_spans (file : File) (ranges : list ByteRange) :
  Forall (fun r => 0 <= start r <= end_ r /\ end_ r <= MAX_SAFE_INTEGER) ranges ->
  createReadStreams file ranges = Ok (map (span file) ranges).
Proof.
  induction 1 as [|r l Hr _ IH]; [reflexivity|].
  cbn [createReadStreams map]. rewrite IH. unfold createReadStream.
  destruct (Z.ltb_spec (start r) 0); [lia|].
  destruct (Z.ltb_spec (end_ r) (start r)); [lia|].
  destruct (Z.ltb_spec MAX_SAFE_INTEGER (end_ r)); [lia|]. reflexivity.
Qed.

Lemma totalLength_spans (file : File) (ranges : list ByteRange) :
  Forall (fun r => start r <= end_ r) ranges ->
  Forall (inside (Z.of_nat (String.length (content file)))) ranges ->
  totalLength (map (span file) ranges) = totalWidth ranges.
Proof.
  induction 1 as [|r l Hr _ IH]; intros Hin; [reflexivity|].
  apply Forall_cons in Hin as [Hinr Hinl].
  unfold totalLength, totalWidth in *. cbn [map foldr].
  rewrite (IH Hinl), span_length by assumption. reflexivity.
Qed.

(** [partialContentHeaders] makes one header block per range and counts
    their bytes. *)
Lemma partialContentHeadersFrom_spec index ranges boundary contentType fileSize acc :
  let res := partialContentHeadersFrom index ranges boundary contentType fileSize acc in
  exists new,
    headers res = (headers acc ++ new)%list
    /\ List.length new = List.length ranges
    /\ size res = size acc + totalLength new.
Proof.
  revert index acc. induction ranges as [|r l IH]; intros index acc; simpl.
  - exists []. rewrite app_nil_r. repeat split. unfold totalLength. simpl. lia.
  - destruct (IH (S index)
               {| headers := (headers acc ++ [partHeader index boundary contentType fileSize r])%list;
                  size := size acc
                          + Z.of_nat (String.length
                                        (partHeader index boundary contentType fileSize r)) |})
      as (new & Hh & Hl & Hs).
    simpl in Hh, Hs.
    exists (partHeader index boundary contentType fileSize r :: new). repeat split.
    + rewrite Hh, <- app_assoc. reflexivity.
    + simpl. now rewrite Hl.
    + rewrite Hs. unfold totalLength. simpl. lia.
Qed.

(** The loop of [responseAllStream] writes the wire format and fulfils
    its promise when there is a header for every stream. *)
Lemma responseAllStream_body (streams headers : list string) (response : Response)
    (endBoundary : string) :
  List.length headers = List.length streams ->
  exists response',
    responseAllStream streams headers response = (response', true)
    /\ statusCode response' = statusCode response
    /\ headerMap response' = headerMap response
    /\ body response' ++ endBoundary
       = body response ++ multipartBody headers streams endBoundary.
Proof.
  revert headers response.
  induction streams as [|stream streams IH]; intros headers response Hlen.
  - destruct headers; [|discriminate]. exists response. repeat split.
  - destruct headers as [|header headers]; [discriminate|].
    destruct (IH headers (write stream (write header response))) as (r' & Hr & Hs & Hh & Hb).
    { simpl in Hlen. lia. }
    exists r'. cbn [responseAllStream multipartBody]. rewrite Hr, Hb.
    repeat split; try assumption.
    cbn [write body]. now rewrite !append_assoc.
Qed.

Lemma multipartBody_length (headers streams : list string) (endBoundary : string) :
  List.length headers = List.length streams ->
  Z.of_nat (String.length (multipartBody headers streams endBoundary))
  = totalLength headers + totalLength streams + Z.of_nat (String.length endBoundary).
Proof.
  revert streams.
  induction headers as [|header headers IH]; intros streams Hlen.
  - destruct streams; [|discriminate]. unfold totalLength. simpl. lia.
  - destruct streams as [|stream streams]; [discriminate|].
    cbn [multipartBody]. rewrite !length_append, !Nat2Z.inj_add, IH by (simpl in Hlen; lia).
    unfold totalLength. simpl. lia.
Qed.

(** When every range of an accepted multi-range [GET] request lies inside
    the file, the body is the wire format of the parts and
    [Content-Length] is its exact number of bytes. *)
Lemma multipart_content_length_inside (files : gmap string File) (boundary : string)
    (request : Request) (file : File) (rangeHeader : string) (ranges : Ranges) :
  method request = "GET" ->
  files !! url request = Some file ->
  rangeSupport (getContentInfo (fileExtension file)) = true ->
  range request = Some rangeHeader -> rangeHeader <> EmptyString ->
  getRanges rangeHeader (Z.of_nat (String.length (content file))) serverOptions = Ok ranges ->
  (1 < List.length (byteRangeSet ranges))%nat ->
  Forall (inside (Z.of_nat (String.length (content file)))) (byteRangeSet ranges) ->
  let response := httpListener files boundary request in
  let fileSize := Z.of_nat (String.length (content file)) in
  let partialHeaders :=
    partialContentHeaders (byteRangeSet ranges) boundary
      (type (getContentInfo (fileExtension file))) fileSize in
  statusCode response = 206
  /\ body response
     = multipartBody (headers partialHeaders) (map (span file) (byteRangeSet ranges))
         (CRLF ++ "--" ++ boundary ++ "--")
  /\ headerMap response !! "Content-Length"
     = Some (HStr (toString (Z.of_nat (String.length (body response))))).
Proof.
  intros Hmethod Hfile Hsupport Hrange Hnonempty Hok Hmany Hinside response fileSize
    partialHeaders.
  pose proof (getRanges_well_formed _ _ serverOptions _ eq_refl Hok) as Hwf.
  assert (length ranges = totalWidth (byteRangeSet ranges)) as Hlength.
  { apply getRanges_inv in Hok as (specs & more & _ & Hparsed & _).
    apply parseAll_inv in Hparsed as (new & _ & Hset & Hlen).
    simpl in Hset, Hlen. rewrite Hset, Hlen. lia. }
  destruct (partialContentHeadersFrom_spec 0 (byteRangeSet ranges) boundary
              (type (getContentInfo (fileExtension file))) fileSize
              {| headers := []; size := 0 |}) as (new & Hh & Hl & Hs).
  fold (partialContentHeaders (byteRangeSet ranges) boundary
          (type (getContentInfo (fileExtension file))) fileSize) in Hh, Hs.
  fold partialHeaders in Hh, Hs. simpl in Hh, Hs. subst new.
  assert (createReadStreams file (byteRangeSet ranges)
          = Ok (map (span file) (byteRangeSet ranges))) as Hstreams.
  { apply createReadStreams_spans.
    apply Forall_forall. intros r Hr.
    pose proof (proj1 (Forall_forall _ _) Hwf r Hr).
    pose proof (proj1 (Forall_forall _ _) Hinside r Hr) as [? ?].
    pose proof (sizeSafe file). simpl in *. lia. }
  assert (List.length (headers partialHeaders)
          = List.length (map (span file) (byteRangeSet ranges))) as Hsame.
  { rewrite Hl, length_map. reflexivity. }
  subst response. unfold httpListener.
  rewrite (tryBlock_range files boundary request file rangeHeader); try assumption;
    [|rewrite Hmethod; apply list_elem_of_here].
  rewrite Hok. apply Nat.ltb_lt in Hmany. rewrite Hmany.
  unfold multiRange. rewrite Hmethod.
  change ("GET" =? "HEAD")%string with false. cbv iota.
  rewrite Hstreams. fold fileSize. fold partialHeaders.
  match goal with
  | |- context [responseAllStream _ _ ?resp] =>
      destruct (responseAllStream_body (map (span file) (byteRangeSet ranges))
                  (headers partialHeaders) resp (CRLF ++ "--" ++ boundary ++ "--") Hsame)
        as (response' & Hrun & Hstatus & Hheaders & Hbody)
  end.
  rewrite Hrun. cbn [endWith statusCode headerMap body].
  rewrite Hstatus, Hheaders, Hbody.
  cbn [setHeader setStatusCode setStatus newResponse statusCode headerMap body
         String.append].
  split; [reflexivity|]. split; [reflexivity|].
  rewrite lookup_insert_eq. do 3 f_equal.
  match goal with
  | |- context [String.append EmptyString ?x] =>
      change (String.append EmptyString x) with x
  end.
  rewrite multipartBody_length by assumption.
  rewrite totalLength_spans by assumption.
  rewrite Hlength, Hs. lia.
Qed.

End Multipart.

(** * Responses outside the range branches *)

Section Dispatcher.
Import JS.

(** A method other than [GET] and [HEAD] is answered with 405, the
    header [Allow: GET,HEAD] as the only header and an empty body, whatever
    the URL and the headers of the request. *)
Theorem method_not_allowed (files : gmap string File) (boundary : string)
    (request : Request) :
  method request ∉ ["GET"; "HEAD"] ->
  httpListener files boundary request
  = {| statusCode := 405; statusMessage := Some "Method Not Allowed";
       headerMap := {[ "Allow" := HStr "GET,HEAD" ]};
       body := EmptyString; finished := true |}.
Proof.
  intros Hmethod. unfold httpListener, tryBlock.
  rewrite (bool_decide_eq_false_2 _ Hmethod). reflexivity.
Qed.

Lemma method_not_allowed_witness :
  httpListener sampleFiles sampleBoundary (sampleRequest "POST" "bytes=0-1")
  = {| statusCode := 405; statusMessage := Some "Method Not Allowed";
       headerMap := {[ "Allow" := HStr "GET,HEAD" ]};
       body := EmptyString; finished := true |}.
Proof.
  apply (method_not_allowed sampleFiles sampleBoundary (sampleRequest "POST" "bytes=0-1")).
  simpl. intros H. repeat (apply elem_of_cons in H as [H|H]; [discriminate H|]).
  now apply not_elem_of_nil in H.
Defined.

(** A [GET] or [HEAD] request for a file that does not exist is answered
    with 404, no header at all and an empty body. *)
Theorem file_not_found (files : gmap string File) (boundary : string)
    (request : Request) :
  method request ∈ ["GET"; "HEAD"] ->
  files !! url request = None ->
  httpListener files boundary request
  = {| statusCode := 404; statusMessage := Some "Not Found";
       headerMap := ∅; body := EmptyString; finished := true |}.
Proof.
  intros Hmethod Hfile. unfold httpListener, tryBlock.
  rewrite (bool_decide_eq_true_2 _ Hmethod), Hfile. reflexivity.
Qed.

Lemma file_not_found_witness :
  httpListener sampleFiles sampleBoundary
    {| method := "HEAD"; url := "/missing.txt"; range := Some "bytes=0-1" |}
  = {| statusCode := 404; statusMessage := Some "Not Found";
       headerMap := ∅; body := EmptyString; finished := true |}.
Proof.
  apply (file_not_found sampleFiles sampleBoundary
           {| method := "HEAD"; url := "/missing.txt"; range := Some "bytes=0-1" |}).
  - apply list_elem_of_further, list_elem_of_here.
  - vm_compute. reflexivity.
Defined.

End Dispatcher.

(** * What [getRanges] and the streams can throw *)

Section Throws.
Import JS.

Lemma parseAll_throw opts fileSize values acc e :
  parseAll opts fileSize values acc = Throw e -> e = RuntimeError.
Proof.
  revert acc. induction values as [|value rest IH]; intros acc; simpl; [discriminate|].
  unfold parseSpec. destruct (exec value) as [[g1 g2]|]; simpl.
  - apply IH.
  - now intros [= <-].
Qed.

Lemma getRanges_throw range fileSize opts e :
  getRanges range fileSize opts = Throw e ->
  e = ERRORS.BYTES_UNIT_NOT_VALID \/ e = RuntimeError
  \/ e = withFileSize ERRORS.RANGE_NOT_SATISFABLE fileSize.
Proof.
  unfold getRanges.
  destruct (split "=" (trim range)) as [|bytesUnit more]; [intros [= <-]; auto|].
  destruct (negb (bytesUnit =? "bytes")%string); [intros [= <-]; auto|].
  destruct more as [|specs more]; [intros [= <-]; auto|].
  destruct (parseAll opts fileSize (split "," specs) _) as [parsed|e'] eqn:Hparsed; simpl.
  - destruct (preventAtack opts && isDenialOfServiceAttacks (byteRangeSet parsed));
      [intros [= <-]; auto | discriminate].
  - intros [= <-]. apply parseAll_throw in Hparsed. auto.
Qed.

Lemma createReadStream_throw file r e :
  createReadStream file r = Throw e -> e = RuntimeError.
Proof.
  unfold createReadStream.
  destruct ((start r <? 0) || (end_ r <? start r) || (MAX_SAFE_INTEGER <? end_ r));
    [now intros [= <-] | discriminate].
Qed.

Lemma createReadStreams_throw file ranges e :
  createReadStreams file ranges = Throw e -> e = RuntimeError.
Proof.
  induction ranges as [|r l IH]; simpl; [discriminate|].
  destruct (createReadStream file r) as [stream|e'] eqn:Hr; simpl.
  - destruct (createReadStreams file l) as [streams|e'']; simpl; [discriminate|].
    intros [= <-]. now apply IH.
  - intros [= <-]. now apply createReadStream_throw in Hr.
Qed.

Lemma createReadStreams_length file ranges streams :
  createReadStreams file ranges = Ok streams ->
  List.length streams = List.length ranges.
Proof.
  revert streams. induction ranges as [|r l IH]; intros streams; simpl.
  - now intros [= <-].
  - destruct (createReadStream file r) as [stream|e]; simpl; [|discriminate].
    destruct (createReadStreams file l) as [streams'|e]; simpl; [|discriminate].
    intros [= <-]. simpl. now rewrite (IH streams').
Qed.

Lemma partialContentHeaders_length ranges boundary contentType fileSize :
  List.length (headers (partialContentHeaders ranges boundary contentType fileSize))
  = List.length ranges.
Proof.
  destruct (partialContentHeadersFrom_spec 0 ranges boundary contentType fileSize
              {| headers := []; size := 0 |}) as (new & Hh & Hl & _).
  unfold partialContentHeaders. rewrite Hh. simpl. exact Hl.
Qed.

End Throws.

(** * Properties of every response *)

Section Every_response.
Import JS.

Ltac status_in :=
  unfold statusCodes;
  solve [repeat first [apply list_elem_of_here | apply list_elem_of_further]].

Ltac response_done :=
  cbn; repeat split; first [status_in | eexists; reflexivity | reflexivity].

(** The loop only appends to the body. *)
Lemma responseAllStream_keeps (streams headers : list string) (response : Response) :
  statusCode (responseAllStream streams headers response).1 = statusCode response
  /\ statusMessage (responseAllStream streams headers response).1 = statusMessage response
  /\ headerMap (responseAllStream streams headers response).1 = headerMap response
  /\ finished (responseAllStream streams headers response).1 = finished response.
Proof.
  revert headers response.
  induction streams as [|stream streams IH]; intros headers response; [easy|].
  destruct headers as [|header headers]; [easy|].
  cbn [responseAllStream].
  apply (IH headers (write stream (write header response))).
Qed.

(** The promise is fulfilled exactly when no stream lacks a header. *)
Lemma responseAllStream_fulfilled (streams headers : list string) (response : Response) :
  (responseAllStream streams headers response).2
  = (List.length streams <=? List.length headers)%nat.
Proof.
  revert headers response.
  induction streams as [|stream streams IH]; intros headers response; [easy|].
  destruct headers as [|header headers]; [easy|].
  cbn [responseAllStream]. apply IH.
Qed.

(** Whatever the request, [httpListener] ends the response, with one of
    six status codes and a status message. *)
Theorem response_always_ended (files : gmap string File) (boundary : string)
    (request : Request) :
  finished (httpListener files boundary request) = true
  /\ statusCode (httpListener files boundary request) ∈ statusCodes
  /\ is_Some (statusMessage (httpListener files boundary request)).
Proof.
  unfold httpListener, tryBlock.
  destruct (bool_decide (method request ∈ ["GET"; "HEAD"])); [|response_done].
  cbn [negb].
  destruct (files !! url request) as [file|]; [|response_done].
  destruct (getContentInfo (fileExtension file)) as [support contentType].
  cbn [rangeSupport type].
  assert (forall response : Response,
            statusCode response = 200 -> statusMessage response = Some "OK" ->
            let '(r, e) := fullDelivery request file response in
            e = None /\ finished r = true /\ statusCode r ∈ statusCodes
            /\ is_Some (statusMessage r)) as Hfull.
  { intros response Hcode Hmessage. unfold fullDelivery.
    destruct (method request =? "HEAD")%string; cbn; rewrite Hcode, Hmessage;
      repeat split; first [status_in | eexists; reflexivity]. }
  destruct support; cbn [truthy].
  2:{ match goal with
      | |- context [fullDelivery request file ?resp] =>
          specialize (Hfull resp eq_refl eq_refl);
          destruct (fullDelivery request file resp) as [r e]
      end.
      destruct Hfull as (-> & ? & ? & ?). auto. }
  destruct (truthy (range request)) as [rangeHeader|].
  2:{ match goal with
      | |- context [fullDelivery request file ?resp] =>
          specialize (Hfull resp eq_refl eq_refl);
          destruct (fullDelivery request file resp) as [r e]
      end.
      destruct Hfull as (-> & ? & ? & ?). auto. }
  clear Hfull.
  destruct (getRanges rangeHeader _ serverOptions) as [ranges|e] eqn:Hranges.
  2:{ apply getRanges_throw in Hranges as [->|[->| ->]]; response_done. }
  destruct (1 <? List.length (byteRangeSet ranges))%nat.
  - unfold multiRange.
    destruct (method request =? "HEAD")%string; [response_done|].
    destruct (createReadStreams file (byteRangeSet ranges)) as [streams|e] eqn:Hstreams.
    2:{ apply createReadStreams_throw in Hstreams as ->. response_done. }
    match goal with
    | |- context [responseAllStream streams ?hs ?resp] =>
        pose proof (responseAllStream_keeps streams hs resp) as (Hcode & Hmessage & _ & _);
        pose proof (responseAllStream_fulfilled streams hs resp) as Hfulfilled;
        destruct (responseAllStream streams hs resp) as [response' fulfilled]
    end.
    cbn [fst snd] in *.
    rewrite partialContentHeaders_length, (createReadStreams_length _ _ _ Hstreams),
      Nat.leb_refl in Hfulfilled.
    subst fulfilled. cbn. rewrite Hcode, Hmessage. response_done.
  - unfold singleRange.
    destruct (byteRangeSet ranges) as [|r rest]; [response_done|].
    destruct (method request =? "HEAD")%string; [response_done|].
    destruct (createReadStream file r) as [stream|e] eqn:Hstream.
    + response_done.
    + apply createReadStream_throw in Hstream as ->. response_done.
Qed.

Lemma partHeader_length (index : nat) (b1 b2 contentType : string) (fileSize : Z)
    (r : ByteRange) :
  String.length b1 = String.length b2 ->
  String.length (partHeader index b1 contentType fileSize r)
  = String.length (partHeader index b2 contentType fileSize r).
Proof.
  intros H. unfold partHeader. rewrite !length_append, H. reflexivity.
Qed.

Lemma partialContentHeadersFrom_size (index : nat) (ranges : list ByteRange)
    (b1 b2 contentType : string) (fileSize : Z) (acc1 acc2 : PartialHeaders) :
  String.length b1 = String.length b2 -> size acc1 = size acc2 ->
  size (partialContentHeadersFrom index ranges b1 contentType fileSize acc1)
  = size (partialContentHeadersFrom index ranges b2 contentType fileSize acc2).
Proof.
  intros Hb. revert index acc1 acc2.
  induction ranges as [|r l IH]; intros index acc1 acc2 Hacc; [exact Hacc|].
  cbn [partialContentHeadersFrom]. apply IH. cbn [size].
  now rewrite Hacc, (partHeader_length index b1 b2).
Qed.

(** The [Content-Length] of a multipart response depends on the boundary
    through its length only. *)
Lemma multipart_length_boundary (ranges : Ranges) (b1 b2 contentType : string)
    (fileSize : Z) :
  String.length b1 = String.length b2 ->
  length ranges + size (partialContentHeaders (byteRangeSet ranges) b1 contentType fileSize)
  + Z.of_nat (String.length (CRLF ++ "--" ++ b1 ++ "--"))
  = length ranges + size (partialContentHeaders (byteRangeSet ranges) b2 contentType fileSize)
    + Z.of_nat (String.length (CRLF ++ "--" ++ b2 ++ "--")).
Proof.
  intros H. unfold partialContentHeaders.
  rewrite (partialContentHeadersFrom_size 0 _ b1 b2 _ _ _ _ H eq_refl).
  now rewrite !length_append, H.
Qed.

(** A [HEAD] request never gets a body.  Unless the [GET] request is
    answered with 500, the [HEAD] request gets the status, the status
    message and the headers of the [GET] request, but for the boundary
    named in the [Content-Type] of a multipart response: each response
    draws its own, and the two have the same length. *)
Theorem head_mirrors_get (files : gmap string File) (boundaryHead boundaryGet : string)
    (request : Request) :
  String.length boundaryHead = String.length boundaryGet ->
  body (httpListener files boundaryHead (withMethod "HEAD" request)) = EmptyString
  /\ (statusCode (httpListener files boundaryGet (withMethod "GET" request)) <> 500 ->
      statusCode (httpListener files boundaryHead (withMethod "HEAD" request))
      = statusCode (httpListener files boundaryGet (withMethod "GET" request))
      /\ statusMessage (httpListener files boundaryHead (withMethod "HEAD" request))
         = statusMessage (httpListener files boundaryGet (withMethod "GET" request))
      /\ (forall name, name <> "Content-Type" ->
            headerMap (httpListener files boundaryHead (withMethod "HEAD" request)) !! name
            = headerMap (httpListener files boundaryGet (withMethod "GET" request)) !! name)
      /\ (headerMap (httpListener files boundaryHead (withMethod "HEAD" request))
            !! "Content-Type"
          = headerMap (httpListener files boundaryGet (withMethod "GET" request))
              !! "Content-Type"
          \/ (headerMap (httpListener files boundaryHead (withMethod "HEAD" request))
                !! "Content-Type"
              = Some (HStr ("multipart/byteranges; boundary=" ++ boundaryHead))
              /\ headerMap (httpListener files boundaryGet (withMethod "GET" request))
                   !! "Content-Type"
                 = Some (HStr ("multipart/byteranges; boundary=" ++ boundaryGet))))).
Proof.
  intros Hboundary.
  unfold httpListener, tryBlock, withMethod. cbn [method url range].
  rewrite (bool_decide_eq_true_2 ("GET" ∈ ["GET"; "HEAD"]))
    by apply list_elem_of_here.
  rewrite (bool_decide_eq_true_2 ("HEAD" ∈ ["GET"; "HEAD"]))
    by apply list_elem_of_further, list_elem_of_here.
  cbn [negb].
  destruct (files !! url request) as [file|]; [|cbn; auto 10].
  destruct (getContentInfo (fileExtension file)) as [support contentType].
  cbn [rangeSupport type].
  destruct (if support then truthy (range request) else None)
    as [rangeHeader|] eqn:Hrange.
  2:{ unfold fullDelivery. cbn [method].
      change ("GET" =? "HEAD")%string with false.
      change ("HEAD" =? "HEAD")%string with true.
      destruct support; cbn; auto 10. }
  destruct support; [|discriminate Hrange].
  destruct (getRanges rangeHeader _ serverOptions) as [ranges|e] eqn:Hranges.
  2:{ apply getRanges_throw in Hranges as [->|[->| ->]]; cbn; auto 10. }
  destruct (1 <? List.length (byteRangeSet ranges))%nat.
  - unfold multiRange. cbn [method type].
    change ("GET" =? "HEAD")%string with false.
    change ("HEAD" =? "HEAD")%string with true. cbv iota.
    rewrite (multipart_length_boundary ranges boundaryHead boundaryGet contentType _
               Hboundary).
    destruct (createReadStreams file (byteRangeSet ranges)) as [streams|e] eqn:Hstreams.
    2:{ apply createReadStreams_throw in Hstreams as ->. cbn.
        split; [reflexivity|]. intros H. now contradiction H. }
    match goal with
    | |- context [responseAllStream streams ?hs ?resp] =>
        pose proof (responseAllStream_keeps streams hs resp)
          as (Hcode & Hmessage & Hheaders & _);
        destruct (responseAllStream streams hs resp) as [response' fulfilled]
    end.
    cbn [fst] in *.
    destruct fulfilled; cbn; rewrite Hcode, Hmessage, Hheaders; cbn;
      (split; [reflexivity|]; intros _; split; [reflexivity|]; split; [reflexivity|];
       split; [intros name Hname;
               destruct (decide ("Content-Length" = name)) as [<-|Hlength];
               [now rewrite !lookup_insert_eq|];
               rewrite !(lookup_insert_ne _ "Content-Length") by assumption;
               now rewrite !(lookup_insert_ne _ "Content-Type") by congruence
              | right; split;
                rewrite lookup_insert_ne by discriminate; now rewrite lookup_insert_eq]).
  - unfold singleRange. cbn [method].
    change ("GET" =? "HEAD")%string with false.
    change ("HEAD" =? "HEAD")%string with true. cbv iota.
    destruct (byteRangeSet ranges) as [|r rest]; [cbn; auto 10|].
    destruct (createReadStream file r) as [stream|e] eqn:Hstream.
    + cbn. auto 10.
    + apply createReadStream_throw in Hstream as ->. cbn.
      split; [reflexivity|]. intros H. now contradiction H.
Qed.

Lemma head_mirrors_get_witness :
  body (httpListener sampleFiles sampleBoundary (sampleRequest "HEAD" "bytes=3-7,1-5"))
  = EmptyString
  /\ statusCode (httpListener sampleFiles sampleBoundary (sampleRequest "HEAD" "bytes=3-7,1-5"))
     = 206
  /\ headerMap (httpListener sampleFiles sampleBoundary (sampleRequest "HEAD" "bytes=3-7,1-5"))
       !! "Content-Length"
     = headerMap (httpListener sampleFiles "9b1deb4d-3b7d-4bad-9bdd-2b0d7b3dcb6d"
                    (sampleRequest "GET" "bytes=3-7,1-5")) !! "Content-Length".
Proof.
  pose proof (head_mirrors_get sampleFiles sampleBoundary
                "9b1deb4d-3b7d-4bad-9bdd-2b0d7b3dcb6d"
                (sampleRequest "GET" "bytes=3-7,1-5") eq_refl)
    as [Hbody Hsame].
  split; [exact Hbody|].
  destruct Hsame as (Hcode & _ & Hheaders & _).
  - vm_compute. discriminate.
  - split; [exact Hcode|]. apply Hheaders. discriminate.
Defined.

End Every_response.

(** * The regular expression of line 206 *)

Section Regex.
Import JS.

Lemma span_digits_split (s ds rest : string) :
  span_digits s = (ds, rest) ->
  s = ds ++ rest /\ string_forallb is_digit ds = true /\ noLeadingDigit rest = true.
Proof.
  revert ds rest. induction s as [|c s IH]; intros ds rest; simpl.
  - intros [= <- <-]. auto.
  - destruct (is_digit c) eqn:Hc.
    + destruct (span_digits s) as [ds' rest'].
      intros [= <- <-]. destruct (IH ds' rest' eq_refl) as (-> & Hds & Hrest).
      simpl. rewrite Hc, Hds. auto.
    + intros [= <- <-]. simpl. rewrite Hc. auto.
Qed.

Lemma noDash_app (s t : string) : noDash (s ++ t) = noDash s && noDash t.
Proof. apply forallb_app. Qed.

Lemma exec_here_none (s : string) : noDash s = true -> exec_here s = None.
Proof.
  intros H. unfold exec_here.
  destruct (span_digits s) as [ds rest] eqn:Hspan.
  apply span_digits_split in Hspan as (-> & _ & _).
  rewrite noDash_app in H. apply andb_true_iff in H as [_ H].
  destruct rest as [|c rest]; [reflexivity|].
  change (noDash (String c rest)) with (negb (Ascii.eqb c "-") && noDash rest) in H.
  apply andb_true_iff in H as [Hc _].
  destruct (Ascii.eqb_spec c "-") as [->|Hne]; [discriminate Hc|].
  destruct c as [[] [] [] [] [] [] [] []]; try reflexivity. now contradiction Hne.
Qed.

(** The match fails exactly on a string without [-]. *)
Lemma exec_none_iff (s : string) : exec s = None <-> noDash s = true.
Proof.
  split.
  - induction s as [|c s IH]; [reflexivity|].
    rewrite exec_unfold.
    destruct (exec_here (String c s)) as [groups|] eqn:Hhere; [discriminate|].
    intros H.
    change (noDash (String c s)) with (negb (Ascii.eqb c "-") && noDash s).
    rewrite (IH H), andb_true_r.
    destruct (Ascii.eqb_spec c "-") as [->|]; [|reflexivity].
    unfold exec_here in Hhere.
    change (span_digits (String "-" s)) with (EmptyString, String "-" s) in Hhere.
    discriminate Hhere.
  - induction s as [|c s IH]; [reflexivity|].
    intros H. rewrite exec_unfold, (exec_here_none _ H).
    change (noDash (String c s)) with (negb (Ascii.eqb c "-") && noDash s) in H.
    apply andb_true_iff in H as [_ H]. exact (IH H).
Qed.

Lemma parseAll_unparsable opts fileSize values acc :
  Exists (fun value => noDash value = true) values ->
  parseAll opts fileSize values acc = Throw RuntimeError.
Proof.
  intros H. revert acc. induction H as [value rest Hv | value rest _ IH]; intros acc; simpl.
  - unfold parseSpec. apply exec_none_iff in Hv. rewrite Hv. reflexivity.
  - unfold parseSpec. destruct (exec value) as [[g1 g2]|]; simpl; [apply IH | reflexivity].
Qed.

Lemma exec_here_sound (s g1 g2 : string) :
  exec_here s = Some (g1, g2) ->
  exists post,
    s = g1 ++ String "-" (g2 ++ post)
    /\ string_forallb is_digit g1 = true
    /\ string_forallb is_digit g2 = true
    /\ noLeadingDigit post = true.
Proof.
  unfold exec_here.
  destruct (span_digits s) as [ds rest] eqn:Hspan.
  apply span_digits_split in Hspan as (-> & Hds & _).
  destruct rest as [|c rest]; [discriminate|].
  destruct (Ascii.eqb_spec c "-") as [->|Hne].
  - destruct (span_digits rest) as [ds2 post] eqn:Hspan2.
    apply span_digits_split in Hspan2 as (-> & Hds2 & Hpost).
    intros [= <- <-]. exists post. auto.
  - destruct c as [[] [] [] [] [] [] [] []]; try discriminate. now contradiction Hne.
Qed.

(** What the regular expression captures: the groups are the longest
    runs of digits on both sides of the first [-] of the string, and
    whatever else the string holds is ignored. *)
Theorem exec_captures (s g1 g2 : string) :
  exec s = Some (g1, g2) ->
  exists pre post,
    s = pre ++ g1 ++ String "-" (g2 ++ post)
    /\ noDash pre = true
    /\ noTrailingDigit pre = true
    /\ string_forallb is_digit g1 = true
    /\ string_forallb is_digit g2 = true
    /\ noLeadingDigit post = true.
Proof.
  induction s as [|c s IH]; [discriminate|].
  rewrite exec_unfold.
  destruct (exec_here (String c s)) as [groups|] eqn:Hhere.
  - intros [= ->]. apply exec_here_sound in Hhere as (post & Hs & H1 & H2 & Hpost).
    exists EmptyString, post. repeat split; assumption.
  - intros Hexec. destruct (IH Hexec) as (pre & post & -> & Hpre & Hlast & H1 & H2 & Hpost).
    exists (String c pre), post.
    assert (c <> "-"%char) as Hdash.
    { intros ->. unfold exec_here in Hhere. simpl in Hhere. discriminate Hhere. }
    assert (pre = EmptyString -> is_digit c = false) as Hc.
    { intros ->. destruct (is_digit c) eqn:Hd; [|reflexivity].
      unfold exec_here in Hhere.
      change (String c (EmptyString ++ g1 ++ String "-" (g2 ++ post)))
        with (String c g1 ++ String "-" (g2 ++ post)) in Hhere.
      rewrite span_digits_dash in Hhere; [discriminate Hhere|].
      simpl. now rewrite Hd, H1. }
    split; [reflexivity|]. split.
    { change (noDash (String c pre)) with (negb (Ascii.eqb c "-") && noDash pre).
      rewrite Hpre. now destruct (Ascii.eqb_spec c "-"). }
    split; [|repeat split; assumption].
    destruct pre as [|c' pre']; [simpl; now rewrite Hc | exact Hlast].
Qed.

Lemma exec_captures_witness :
  exists pre post,
    " 12-34x" = pre ++ "12" ++ String "-" ("34" ++ post)
    /\ noDash pre = true
    /\ noTrailingDigit pre = true
    /\ string_forallb is_digit "12" = true
    /\ string_forallb is_digit "34" = true
    /\ noLeadingDigit post = true.
Proof. apply (exec_captures " 12-34x" "12" "34"). reflexivity. Defined.

End Regex.

(** * Error responses of the range branch and full delivery *)

Section Range_errors.
Import JS.

(** A set the scorer refuses is answered with 416, the status message of
    [RANGE_NOT_SATISFABLE], the header [Content-Range: bytes */size] for
    the size of the file, and an empty body; the [Content-Length] header
    set before the [Range] header was examined is still the size of the
    file. *)
Theorem refused_set_response (files : gmap string File) (boundary : string)
    (request : Request) (file : File) (rangeHeader : string) :
  method request ∈ ["GET"; "HEAD"] ->
  files !! url request = Some file ->
  rangeSupport (getContentInfo (fileExtension file)) = true ->
  range request = Some rangeHeader -> rangeHeader <> EmptyString ->
  getRanges rangeHeader (Z.of_nat (String.length (content file))) serverOptions
  = Throw (withFileSize ERRORS.RANGE_NOT_SATISFABLE
             (Z.of_nat (String.length (content file)))) ->
  statusCode (httpListener files boundary request) = 416
  /\ statusMessage (httpListener files boundary request) = Some "Range Not Satisfable"
  /\ headerMap (httpListener files boundary request) !! "Content-Range"
     = Some (HStr ("bytes */" ++ toString (Z.of_nat (String.length (content file)))))
  /\ headerMap (httpListener files boundary request) !! "Content-Length"
     = Some (HNum (Z.of_nat (String.length (content file))))
  /\ body (httpListener files boundary request) = EmptyString.
Proof.
  intros Hmethod Hfile Hsupport Hrange Hnonempty Hthrow.
  unfold httpListener.
  rewrite (tryBlock_range files boundary request file rangeHeader) by assumption.
  rewrite Hthrow. repeat split.
Qed.

Lemma refused_set_response_witness :
  statusCode (httpListener sampleFiles sampleBoundary (sampleRequest "GET" "bytes=7-2")) = 416
  /\ statusMessage (httpListener sampleFiles sampleBoundary (sampleRequest "GET" "bytes=7-2"))
     = Some "Range Not Satisfable"
  /\ headerMap (httpListener sampleFiles sampleBoundary (sampleRequest "GET" "bytes=7-2"))
       !! "Content-Range" = Some (HStr "bytes */10")
  /\ headerMap (httpListener sampleFiles sampleBoundary (sampleRequest "GET" "bytes=7-2"))
       !! "Content-Length" = Some (HNum 10)
  /\ body (httpListener sampleFiles sampleBoundary (sampleRequest "GET" "bytes=7-2"))
     = EmptyString.
Proof.
  apply (refused_set_response sampleFiles sampleBoundary (sampleRequest "GET" "bytes=7-2")
           sampleFile "bytes=7-2").
  - apply list_elem_of_here.
  - vm_compute. reflexivity.
  - vm_compute. reflexivity.
  - reflexivity.
  - discriminate.
  - vm_compute. reflexivity.
Defined.

(** A header with unit [bytes] one of whose specs holds no [-] makes
    [getRanges] fail with a runtime exception, whatever the other specs
    are; the response is 500 with the message
    [Internal Server Error], no [Content-Range] header and an empty
    body. *)
Theorem spec_without_dash_response (files : gmap string File) (boundary : string)
    (request : Request) (file : File) (rangeHeader byteRangeSetString : string)
    (more : list string) :
  method request ∈ ["GET"; "HEAD"] ->
  files !! url request = Some file ->
  rangeSupport (getContentInfo (fileExtension file)) = true ->
  range request = Some rangeHeader -> rangeHeader <> EmptyString ->
  split "=" (trim rangeHeader) = "bytes" :: byteRangeSetString :: more ->
  Exists (fun value => noDash value = true) (split "," byteRangeSetString) ->
  (forall fileSize opts, getRanges rangeHeader fileSize opts = Throw RuntimeError)
  /\ statusCode (httpListener files boundary request) = 500
  /\ statusMessage (httpListener files boundary request) = Some "Internal Server Error"
  /\ headerMap (httpListener files boundary request) !! "Content-Range" = None
  /\ body (httpListener files boundary request) = EmptyString.
Proof.
  intros Hmethod Hfile Hsupport Hrange Hnonempty Hsplit Hbad.
  assert (forall fileSize opts, getRanges rangeHeader fileSize opts = Throw RuntimeError)
    as Hthrow.
  { intros fileSize opts. unfold getRanges. rewrite Hsplit. cbn.
    now rewrite parseAll_unparsable. }
  split; [exact Hthrow|].
  unfold httpListener.
  rewrite (tryBlock_range files boundary request file rangeHeader) by assumption.
  rewrite Hthrow. repeat split.
Qed.

Lemma spec_without_dash_response_witness :
  (forall fileSize opts, getRanges "bytes=7-2,9" fileSize opts = Throw RuntimeError)
  /\ statusCode (httpListener sampleFiles sampleBoundary (sampleRequest "GET" "bytes=7-2,9"))
     = 500
  /\ statusMessage (httpListener sampleFiles sampleBoundary (sampleRequest "GET" "bytes=7-2,9"))
     = Some "Internal Server Error"
  /\ headerMap (httpListener sampleFiles sampleBoundary (sampleRequest "GET" "bytes=7-2,9"))
       !! "Content-Range" = None
  /\ body (httpListener sampleFiles sampleBoundary (sampleRequest "GET" "bytes=7-2,9"))
     = EmptyString.
Proof.
  apply (spec_without_dash_response sampleFiles sampleBoundary
           (sampleRequest "GET" "bytes=7-2,9") sampleFile "bytes=7-2,9" "7-2,9" []).
  - apply list_elem_of_here.
  - vm_compute. reflexivity.
  - vm_compute. reflexivity.
  - reflexivity.
  - discriminate.
  - vm_compute. reflexivity.
  - apply Exists_cons_tl, Exists_cons_hd. reflexivity.
Defined.

(** When the type of the file does not support ranges, or the request
    has no [Range] header or an empty one, the header is ignored: the
    response is that of the request without it, with status 200, the
    size of the file as [Content-Length], a [Content-Disposition]
    naming the file, no [Content-Range], [Accept-Ranges] only for a type
    that supports ranges, and the whole file as the body of a [GET]. *)
Theorem full_delivery (files : gmap string File) (boundary : string)
    (request : Request) (file : File) :
  method request ∈ ["GET"; "HEAD"] ->
  files !! url request = Some file ->
  rangeSupport (getContentInfo (fileExtension file)) = false
  \/ range request = None \/ range request = Some EmptyString ->
  httpListener files boundary request
  = httpListener files boundary (withoutRange request)
  /\ statusCode (httpListener files boundary request) = 200
  /\ headerMap (httpListener files boundary request) !! "Content-Length"
     = Some (HNum (Z.of_nat (String.length (content file))))
  /\ headerMap (httpListener files boundary request) !! "Content-Disposition"
     = Some (HStr ("attachment; filename=" ++ DQUOTE ++ fileName file ++ DQUOTE))
  /\ headerMap (httpListener files boundary request) !! "Content-Range" = None
  /\ headerMap (httpListener files boundary request) !! "Accept-Ranges"
     = (if rangeSupport (getContentInfo (fileExtension file))
        then Some (HStr "bytes") else None)
  /\ body (httpListener files boundary request)
     = (if (method request =? "HEAD")%string then EmptyString else content file).
Proof.
  intros Hmethod Hfile Hcase.
  unfold httpListener, tryBlock, withoutRange. cbn [method url range].
  rewrite (bool_decide_eq_true_2 _ Hmethod), Hfile. cbn [negb].
  assert ((if rangeSupport (getContentInfo (fileExtension file))
           then truthy (range request) else None) = None) as ->.
  { destruct Hcase as [-> | [-> | ->]]; [reflexivity| |];
      now destruct (rangeSupport _). }
  assert ((if rangeSupport (getContentInfo (fileExtension file))
           then truthy None else None) = None) as ->.
  { now destruct (rangeSupport _). }
  unfold fullDelivery. cbn [method url range].
  destruct (rangeSupport (getContentInfo (fileExtension file)));
    destruct (method request =? "HEAD")%string; repeat split.
Qed.

Lemma full_delivery_witness :
  httpListener sampleFiles sampleBoundary (sampleRequest "GET" EmptyString)
  = httpListener sampleFiles sampleBoundary (withoutRange (sampleRequest "GET" EmptyString))
  /\ statusCode (httpListener sampleFiles sampleBoundary (sampleRequest "GET" EmptyString)) = 200
  /\ body (httpListener sampleFiles sampleBoundary (sampleRequest "GET" EmptyString))
     = "0123456789".
Proof.
  destruct (full_delivery sampleFiles sampleBoundary (sampleRequest "GET" EmptyString)
              sampleFile) as (Hsame & Hcode & _ & _ & _ & _ & Hbody).
  - apply list_elem_of_here.
  - vm_compute. reflexivity.
  - right. right. reflexivity.
  - split; [exact Hsame|]. split; [exact Hcode | exact Hbody].
Defined.

End Range_errors.

(** * Outcomes of [getRanges] *)

Section Outcomes.
Import JS.

Lemma split_nonempty (sep : ascii) (s : string) : split sep s <> [].
Proof.
  destruct s as [|c s]; simpl; [discriminate|].
  destruct (Ascii.eqb c sep); [discriminate|].
  destruct (split sep s); discriminate.
Qed.

Lemma parseAll_throw_unparsable opts fileSize values acc e :
  parseAll opts fileSize values acc = Throw e ->
  Exists (fun value => noDash value = true) values.
Proof.
  revert acc. induction values as [|value rest IH]; intros acc; simpl; [discriminate|].
  unfold parseSpec. destruct (exec value) as [[g1 g2]|] eqn:Hexec; simpl.
  - intros H. apply Exists_cons_tl. exact (IH _ H).
  - intros _. apply Exists_cons_hd. now apply exec_none_iff.
Qed.

(** The three ways [getRanges] fails, in the order it checks them: the
    unit is not [bytes]; the header has no [=] after the unit or one of
    its specs holds no [-] (a runtime exception); every spec parsed and
    the scorer, being enabled, refused the set. *)
Theorem getRanges_failures (range : string) (fileSize : Z) (opts : Options) (e : Error) :
  getRanges range fileSize opts = Throw e ->
  (e = ERRORS.BYTES_UNIT_NOT_VALID
   /\ exists bytesUnit more,
        split "=" (trim range) = bytesUnit :: more /\ bytesUnit <> "bytes")
  \/ (e = RuntimeError
      /\ (split "=" (trim range) = ["bytes"]
          \/ exists byteRangeSetString more,
               split "=" (trim range) = "bytes" :: byteRangeSetString :: more
               /\ Exists (fun value => noDash value = true)
                    (split "," byteRangeSetString)))
  \/ (e = withFileSize ERRORS.RANGE_NOT_SATISFABLE fileSize
      /\ preventAtack opts = true
      /\ exists byteRangeSetString more parsed,
           split "=" (trim range) = "bytes" :: byteRangeSetString :: more
           /\ parseAll opts fileSize (split "," byteRangeSetString) noRanges = Ok parsed
           /\ isDenialOfServiceAttacks (byteRangeSet parsed) = true).
Proof.
  unfold getRanges.
  destruct (split "=" (trim range)) as [|bytesUnit more] eqn:Hsplit;
    [now apply split_nonempty in Hsplit|].
  destruct (String.eqb_spec bytesUnit "bytes") as [->|Hunit]; cbn [negb].
  2:{ intros [= <-]. left. eauto. }
  destruct more as [|specs more]; [intros [= <-]; right; left; auto|].
  fold noRanges.
  destruct (parseAll opts fileSize (split "," specs) noRanges) as [parsed|e'] eqn:Hparsed;
    cbn [mbind result_bind].
  - destruct (preventAtack opts) eqn:Hprevent; [|discriminate]. cbn [andb].
    destruct (isDenialOfServiceAttacks (byteRangeSet parsed)) eqn:Hdos; [|discriminate].
    intros [= <-]. right. right. split; [reflexivity|]. split; [reflexivity|].
    exists specs, more, parsed. auto.
  - intros [= <-]. right. left.
    pose proof (parseAll_throw _ _ _ _ _ Hparsed) as ->.
    split; [reflexivity|]. right. exists specs, more. split; [reflexivity|].
    now apply parseAll_throw_unparsable in Hparsed.
Qed.

Lemma getRanges_failures_witness :
  (RuntimeError = ERRORS.BYTES_UNIT_NOT_VALID
   /\ exists bytesUnit more,
        split "=" (trim "bytes") = bytesUnit :: more /\ bytesUnit <> "bytes")
  \/ (RuntimeError = RuntimeError
      /\ (split "=" (trim "bytes") = ["bytes"]
          \/ exists byteRangeSetString more,
               split "=" (trim "bytes") = "bytes" :: byteRangeSetString :: more
               /\ Exists (fun value => noDash value = true)
                    (split "," byteRangeSetString)))
  \/ (RuntimeError = withFileSize ERRORS.RANGE_NOT_SATISFABLE 10
      /\ preventAtack serverOptions = true
      /\ exists byteRangeSetString more parsed,
           split "=" (trim "bytes") = "bytes" :: byteRangeSetString :: more
           /\ parseAll serverOptions 10 (split "," byteRangeSetString) noRanges = Ok parsed
           /\ isDenialOfServiceAttacks (byteRangeSet parsed) = true).
Proof.
  apply (getRanges_failures "bytes" 10 serverOptions RuntimeError).
  vm_compute. reflexivity.
Defined.

End Outcomes.

(** * Single specs at the edges of the file *)

Section Edges.
Import JS.

Lemma exec_explicit (ds1 ds2 : string) :
  string_forallb is_digit ds1 = true -> string_forallb is_digit ds2 = true ->
  exec (ds1 ++ String "-" ds2) = Some (ds1, ds2).
Proof.
  intros H1 H2. rewrite exec_unfold. unfold exec_here.
  rewrite (span_digits_dash ds1 ds2 H1), (span_digits_all ds2 H2). reflexivity.
Qed.

(** [getRanges] on a header with one spec, written with digits and dashes
    only, whose range is well formed after [limit] and truncation. *)
Lemma getRanges_one (spec : string) (fileSize : Z) (opts : Options) (g1 g2 : string)
    (r : ByteRange) :
  string_forallb (fun c => is_digit c || Ascii.eqb c "-") spec = true ->
  exec spec = Some (g1, g2) ->
  truncate opts (limitRange opts fileSize (expand fileSize (toNumber g1) (toNumber g2))) = r ->
  start r <= end_ r ->
  getRanges ("bytes=" ++ spec) fileSize opts
  = Ok {| byteRangeSet := [r]; length := width r |}.
Proof.
  intros Hspec Hexec Hr Hwf.
  destruct (header_pieces spec Hspec) as [Hunit Hlist].
  unfold getRanges. rewrite Hunit. cbn [String.eqb Ascii.eqb Bool.eqb negb andb].
  rewrite Hlist. cbn [parseAll]. unfold parseSpec. rewrite Hexec, Hr.
  cbn [mbind result_bind byteRangeSet length app].
  rewrite (single_range_accepted r Hwf), andb_false_r.
  unfold width. do 2 f_equal.
Qed.

(** [getRanges] on a header with one spec whose range is malformed after
    [limit] and truncation, with the scorer enabled. *)
Lemma getRanges_one_refused (spec : string) (fileSize : Z) (opts : Options) (g1 g2 : string)
    (r : ByteRange) :
  preventAtack opts = true ->
  string_forallb (fun c => is_digit c || Ascii.eqb c "-") spec = true ->
  exec spec = Some (g1, g2) ->
  truncate opts (limitRange opts fileSize (expand fileSize (toNumber g1) (toNumber g2))) = r ->
  end_ r < start r ->
  getRanges ("bytes=" ++ spec) fileSize opts
  = Throw (withFileSize ERRORS.RANGE_NOT_SATISFABLE fileSize).
Proof.
  intros Hprevent Hspec Hexec Hr Hbad.
  destruct (header_pieces spec Hspec) as [Hunit Hlist].
  unfold getRanges. rewrite Hunit. cbn [String.eqb Ascii.eqb Bool.eqb negb andb].
  rewrite Hlist. cbn [parseAll]. unfold parseSpec. rewrite Hexec, Hr.
  cbn [mbind result_bind byteRangeSet length app].
  rewrite Hprevent, malformed_reject; [reflexivity|].
  apply Exists_cons_hd. unfold malformed. apply Z.gtb_lt. lia.
Qed.

Lemma limitRange_off opts fileSize r :
  correctValues opts = false -> limitRange opts fileSize r = r.
Proof. intros H. unfold limitRange, limit. rewrite H. now destruct r. Qed.

(** An explicit spec [a-b] inside the file, not wider than the maximum
    chunk length, yields exactly the range [a .. b]. *)
Theorem explicit_range (fileSize a b : Z) (opts : Options) :
  0 <= a <= b -> b < fileSize ->
  partialMaxLength opts = 0 \/ b - a + 1 <= partialMaxLength opts ->
  getRanges ("bytes=" ++ toString a ++ "-" ++ toString b) fileSize opts
  = Ok {| byteRangeSet := [{| start := a; end_ := b |}]; length := b - a + 1 |}.
Proof.
  intros Hab Hb Hfits.
  rewrite (getRanges_single (toString a ++ "-" ++ toString b) fileSize opts
             (toString a) (toString b) {| start := a; end_ := b |}).
  - reflexivity.
  - rewrite forallb_app, digits_or_dash by lia.
    change ("-" ++ toString b) with (String "-" (toString b)).
    simpl. apply digits_or_dash. lia.
  - apply exec_explicit; apply toString_digits; lia.
  - unfold expand. rewrite !toNumber_toString by lia. reflexivity.
  - simpl. lia.
  - simpl. lia.
  - exact Hfits.
Qed.

Lemma explicit_range_witness :
  getRanges "bytes=500-600" 1000 serverOptions
  = Ok {| byteRangeSet := [{| start := 500; end_ := 600 |}]; length := 600 - 500 + 1 |}.
Proof.
  apply (explicit_range 1000 500 600 serverOptions); [lia | lia |].
  right. vm_compute. discriminate.
Defined.

(** A suffix spec [-N] longer than the file, on exact integers.  Without
    [correctValues] the range has the negative start [fileSize - N]; with
    [correctValues] the start is clamped and the range is the whole
    file. *)
Lemma suffix_longer_on_integers (fileSize N : Z) (opts : Options) :
  0 < fileSize < N ->
  (correctValues opts = false ->
   partialMaxLength opts = 0 \/ N <= partialMaxLength opts ->
   getRanges ("bytes=-" ++ toString N) fileSize opts
   = Ok {| byteRangeSet := [{| start := fileSize - N; end_ := fileSize - 1 |}];
           length := N |})
  /\ (correctValues opts = true ->
      partialMaxLength opts = 0 \/ fileSize <= partialMaxLength opts ->
      getRanges ("bytes=-" ++ toString N) fileSize opts
      = Ok {| byteRangeSet := [{| start := 0; end_ := fileSize - 1 |}];
              length := fileSize |}).
Proof.
  intros Hsize.
  assert (string_forallb (fun c => is_digit c || Ascii.eqb c "-")
            (String "-" (toString N)) = true) as Hspec.
  { simpl. apply digits_or_dash. lia. }
  assert (exec (String "-" (toString N)) = Some (EmptyString, toString N)) as Hexec.
  { apply exec_suffix, toString_digits. lia. }
  assert (expand fileSize (toNumber EmptyString) (toNumber (toString N))
          = {| start := fileSize - N; end_ := fileSize - 1 |}) as Hexpand.
  { unfold expand. rewrite toNumber_toString by lia. reflexivity. }
  split; intros Hcorrect Hfits;
    change ("bytes=-" ++ toString N) with ("bytes=" ++ String "-" (toString N)).
  - rewrite (getRanges_one _ fileSize opts _ _
               {| start := fileSize - N; end_ := fileSize - 1 |} Hspec Hexec).
    + unfold width. simpl. do 2 f_equal. lia.
    + rewrite Hexpand, limitRange_off by assumption.
      apply truncate_fits. unfold width. simpl.
      destruct Hfits; [left; assumption | right; lia].
    + simpl. lia.
  - rewrite (getRanges_one _ fileSize opts _ _
               {| start := 0; end_ := fileSize - 1 |} Hspec Hexec).
    + unfold width. simpl. do 2 f_equal. lia.
    + rewrite Hexpand. unfold limitRange, limit. rewrite Hcorrect. simpl.
      destruct (Z.ltb_spec (fileSize - N) 0); [|lia].
      destruct (Z.ltb_spec (fileSize - 1) 0); [lia|].
      destruct (Z.gtb_spec (fileSize - 1) (fileSize - 1)); [lia|].
      apply truncate_fits. unfold width. simpl.
      destruct Hfits; [left; assumption | right; lia].
    + simpl. lia.
Qed.

(** The empty suffix specs [-0] and [-].  Without [correctValues] and
    with the scorer enabled they are refused as not satisfiable, for a
    file of any size. *)
Theorem empty_suffix_refused (fileSize : Z) (opts : Options) :
  correctValues opts = false -> preventAtack opts = true ->
  getRanges "bytes=-0" fileSize opts
  = Throw (withFileSize ERRORS.RANGE_NOT_SATISFABLE fileSize)
  /\ getRanges "bytes=-" fileSize opts
     = Throw (withFileSize ERRORS.RANGE_NOT_SATISFABLE fileSize).
Proof.
  intros Hcorrect Hprevent.
  assert (forall r, r = truncate opts {| start := fileSize - 0; end_ := fileSize - 1 |} ->
                    end_ r < start r) as Hbad.
  { intros r ->. unfold truncate. cbn [start end_].
    destruct (negb (partialMaxLength opts =? 0)
              && (fileSize - 1 - (fileSize - 0) + 1 >? partialMaxLength opts)) eqn:Hcut;
      cbn [start end_]; [|lia].
    apply andb_true_iff in Hcut as [_ Hcut]. apply Z.gtb_lt in Hcut. lia. }
  split.
  - apply (getRanges_one_refused "-0" fileSize opts EmptyString "0"
             (truncate opts {| start := fileSize - 0; end_ := fileSize - 1 |}));
      try reflexivity; try assumption.
    + now rewrite limitRange_off by assumption.
    + now apply Hbad.
  - apply (getRanges_one_refused "-" fileSize opts EmptyString EmptyString
             (truncate opts {| start := fileSize - 0; end_ := fileSize - 1 |}));
      try reflexivity; try assumption.
    + now rewrite limitRange_off by assumption.
    + now apply Hbad.
Qed.

Lemma empty_suffix_refused_witness :
  getRanges "bytes=-0" 1000 serverOptions
  = Throw (withFileSize ERRORS.RANGE_NOT_SATISFABLE 1000)
  /\ getRanges "bytes=-" 1000 serverOptions
     = Throw (withFileSize ERRORS.RANGE_NOT_SATISFABLE 1000).
Proof. apply (empty_suffix_refused 1000 serverOptions); reflexivity. Defined.

Lemma limit_bounds opts fileSize val :
  correctValues opts = true -> 0 < fileSize ->
  0 <= limit opts fileSize val <= fileSize - 1.
Proof.
  intros Hcorrect Hsize. unfold limit. rewrite Hcorrect.
  destruct (Z.ltb_spec val 0); [lia|].
  destruct (Z.gtb_spec val (fileSize - 1)); lia.
Qed.

(** With [correctValues] and the scorer enabled, every range of a
    returned set lies inside a non-empty file: [0 <= start <= end <
    fileSize]. *)
Theorem corrected_ranges_inside (range : string) (fileSize : Z) (opts : Options)
    (ranges : Ranges) :
  correctValues opts = true -> preventAtack opts = true -> 0 < fileSize ->
  getRanges range fileSize opts = Ok ranges ->
  Forall (fun r => 0 <= start r <= end_ r /\ end_ r < fileSize) (byteRangeSet ranges).
Proof.
  intros Hcorrect Hprevent Hsize Hok.
  pose proof (getRanges_well_formed _ _ _ _ Hprevent Hok) as Hwf.
  apply getRanges_inv in Hok as (specs & more & _ & Hparsed & _).
  apply parseAll_inv in Hparsed as (new & Hnew & Hset & _).
  simpl in Hset. subst new.
  revert Hwf. induction Hnew as [|value r values rs Hr _ IH]; intros Hwf; [constructor|].
  apply Forall_cons in Hwf as [Hwfr Hwfrs].
  constructor; [|exact (IH Hwfrs)].
  apply parseSpec_untruncated in Hr as (p & Hp & ->).
  unfold untruncated in Hp. destruct (exec value) as [[g1 g2]|]; [|discriminate].
  injection Hp as <-.
  set (q := expand fileSize (toNumber g1) (toNumber g2)) in *.
  pose proof (limit_bounds opts fileSize (start q) Hcorrect Hsize).
  pose proof (limit_bounds opts fileSize (end_ q) Hcorrect Hsize).
  revert Hwfr. unfold truncate, limitRange. cbn [start end_].
  destruct (negb (partialMaxLength opts =? 0) && _) eqn:Hcut; cbn [start end_]; [|lia].
  apply andb_true_iff in Hcut as [_ Hcut]. apply Z.gtb_lt in Hcut. lia.
Qed.

Lemma corrected_ranges_inside_witness :
  Forall (fun r => 0 <= start r <= end_ r /\ end_ r < 10)
         [{| start := 0; end_ := 9 |}; {| start := 3; end_ := 9 |}].
Proof.
  apply (corrected_ranges_inside "bytes=-25,3-70000" 10
           {| correctValues := true; preventAtack := true; partialMaxLength := 0 |}
           {| byteRangeSet := [{| start := 0; end_ := 9 |}; {| start := 3; end_ := 9 |}];
              length := 17 |});
    reflexivity.
Defined.

End Edges.

(** * Decisions of the scorer *)

Section Decisions.

(** The comparison of line 271 in integers: ten points, or seven once the
    multiplier is 1.5. *)
Lemma refused_iff_points (ranges : list ByteRange) :
  isDenialOfServiceAttacks ranges = true <->
  (if 0 <? consecutivePairs sortTest ranges then 7 else 10) <= pointSumOf ranges.
Proof.
  rewrite isDenialOfServiceAttacks_score, multiplicatorOf_closed, Qle_bool_iff.
  destruct (0 <? consecutivePairs sortTest ranges);
    unfold Qle, POINT_NOT_SORTED_MULTIPLICATOR, POINT_OF_NOT_SATISFABLE; simpl; lia.
Qed.

Lemma consecutivePairs_nonneg test ranges : 0 <= consecutivePairs test ranges.
Proof. destruct ranges; simpl; [lia | apply countPairs_nonneg]. Qed.

Lemma countPairs_app_le test prev l1 l2 :
  countPairs test prev l1 <= countPairs test prev (l1 ++ l2)%list.
Proof.
  revert prev. induction l1 as [|v l1 IH]; intros prev; simpl.
  - apply countPairs_nonneg.
  - specialize (IH v). lia.
Qed.

Lemma consecutivePairs_app_le test l1 l2 :
  consecutivePairs test l1 <= consecutivePairs test (l1 ++ l2)%list.
Proof.
  destruct l1 as [|first l1]; simpl.
  - apply consecutivePairs_nonneg.
  - apply countPairs_app_le.
Qed.

Lemma count_none (test : ByteRange -> bool) (ranges : list ByteRange) :
  Forall (fun r => test r = false) ranges -> count test ranges = 0.
Proof.
  induction 1 as [|r l Hr _ IH]; [reflexivity|]. rewrite count_cons, Hr, IH. lia.
Qed.

(** The decision of [isDenialOfServiceAttacks] in whole numbers: a set
    is refused from ten points on, and already from seven points on when
    some part starts after the end of the part before it. *)
Theorem scorer_threshold (ranges : list ByteRange) :
  isDenialOfServiceAttacks ranges
  = if 0 <? consecutivePairs sortTest ranges
    then 7 <=? pointSumOf ranges
    else 10 <=? pointSumOf ranges.
Proof.
  pose proof (refused_iff_points ranges) as H.
  destruct (isDenialOfServiceAttacks ranges);
    destruct (0 <? consecutivePairs sortTest ranges);
    symmetry.
  - apply Z.leb_le, H. reflexivity.
  - apply Z.leb_le, H. reflexivity.
  - apply Z.leb_gt. apply Z.nle_gt. intros Hle. apply H in Hle. discriminate.
  - apply Z.leb_gt. apply Z.nle_gt. intros Hle. apply H in Hle. discriminate.
Qed.

(** Five parts of at most 65536 bytes are enough to refuse a set, in any
    order and wherever they lie. *)
Theorem five_small_parts_refused (ranges : list ByteRange) :
  5 <= count (fun r => width r <=? 65536) ranges ->
  isDenialOfServiceAttacks ranges = true.
Proof.
  intros H. apply ten_points_reject. rewrite pointSumOf_closed.
  pose proof (count_nonneg malformed ranges).
  pose proof (consecutivePairs_nonneg crossTest ranges). lia.
Qed.

Lemma five_small_parts_refused_witness :
  isDenialOfServiceAttacks
    [{| start := 400000; end_ := 400099 |}; {| start := 300000; end_ := 300099 |};
     {| start := 200000; end_ := 200099 |}; {| start := 100000; end_ := 100099 |};
     {| start := 0; end_ := 99 |}] = true.
Proof. apply five_small_parts_refused. vm_compute. discriminate. Defined.

Lemma ascending_not_crossing (prev value : ByteRange) :
  start prev <= end_ prev -> start value <= end_ value ->
  sortTest prev value = true -> crossTest prev value = false.
Proof.
  unfold sortTest, crossTest. intros Hp Hv H. apply Z.ltb_lt in H. apply Z.ltb_ge. lia.
Qed.

Lemma ascending_no_crossings (prev : ByteRange) (rest : list ByteRange) :
  start prev <= end_ prev -> Forall (fun r => start r <= end_ r) rest ->
  allPairsFrom sortTest prev rest = true ->
  countPairs crossTest prev rest = 0.
Proof.
  intros Hp Hrest. revert prev Hp.
  induction Hrest as [|v rest Hv _ IH]; intros prev Hp; [reflexivity|].
  cbn [allPairsFrom countPairs]. intros [Hsort Hall]%andb_true_iff.
  rewrite (ascending_not_crossing prev v Hp Hv Hsort), (IH v Hv Hall). reflexivity.
Qed.

(** On exact integers, a set of parts wider than 65536 bytes, each
    starting after the end of the part before it, scores no point. *)
Lemma wide_ascending_on_integers (ranges : list ByteRange) :
  Forall (fun r => 65536 < width r) ranges ->
  allPairs sortTest ranges = true ->
  pointSumOf ranges = 0 /\ isDenialOfServiceAttacks ranges = false.
Proof.
  intros Hwide Hsorted.
  assert (pointSumOf ranges = 0) as Hsum.
  { rewrite pointSumOf_closed.
    rewrite (count_none malformed), (count_none (fun r => width r <=? 65536)).
    - destruct ranges as [|first rest]; [reflexivity|].
      apply Forall_cons in Hwide as [Hfirst Hrest]. cbn [consecutivePairs].
      rewrite ascending_no_crossings; [reflexivity| | |exact Hsorted].
      + unfold width in Hfirst. lia.
      + eapply Forall_impl; [exact Hrest|]. intros r Hr. simpl in Hr.
        unfold width in Hr. lia.
    - eapply Forall_impl; [exact Hwide|]. intros r Hr. simpl in Hr.
      apply Z.leb_gt. lia.
    - eapply Forall_impl; [exact Hwide|]. intros r Hr. simpl in Hr.
      unfold malformed. unfold width in Hr. rewrite Z.gtb_ltb. apply Z.ltb_ge. lia. }
  split; [exact Hsum|].
  destruct (isDenialOfServiceAttacks ranges) eqn:Hdos; [|reflexivity].
  apply refused_iff_points in Hdos. rewrite Hsum in Hdos.
  destruct (0 <? consecutivePairs sortTest ranges); lia.
Qed.

(** A refused set stays refused when parts are appended to it: points
    are only added and the multiplier is never reset. *)
Theorem refusal_kept_by_append (ranges more : list ByteRange) :
  isDenialOfServiceAttacks ranges = true ->
  isDenialOfServiceAttacks (ranges ++ more)%list = true.
Proof.
  intros H. apply refused_iff_points in H. apply refused_iff_points.
  pose proof (consecutivePairs_app_le sortTest ranges more) as Hsort.
  pose proof (consecutivePairs_app_le crossTest ranges more) as Hcross.
  pose proof (consecutivePairs_nonneg sortTest ranges).
  assert (pointSumOf ranges <= pointSumOf (ranges ++ more)%list) as Hsum.
  { rewrite !pointSumOf_closed, !count_app.
    pose proof (count_nonneg malformed more).
    pose proof (count_nonneg (fun r => width r <=? 65536) more). lia. }
  destruct (Z.ltb_spec 0 (consecutivePairs sortTest ranges));
    destruct (Z.ltb_spec 0 (consecutivePairs sortTest (ranges ++ more)%list)); lia.
Qed.

Lemma refusal_kept_by_append_witness :
  isDenialOfServiceAttacks
    ([{| start := 7; end_ := 2 |}] ++ [{| start := 0; end_ := 99999 |}])%list = true.
Proof. apply refusal_kept_by_append. reflexivity. Defined.

End Decisions.

(** * Header blocks and the order of writing *)

Section Assembly.
Import JS.

Lemma partialContentHeadersFrom_imap index ranges boundary contentType fileSize acc :
  headers (partialContentHeadersFrom index ranges boundary contentType fileSize acc)
  = (headers acc
     ++ imap (fun i r => partHeader (index + i) boundary contentType fileSize r) ranges)%list
  /\ size (partialContentHeadersFrom index ranges boundary contentType fileSize acc)
     = size acc
       + totalLength
           (imap (fun i r => partHeader (index + i) boundary contentType fileSize r) ranges).
Proof.
  revert index acc. induction ranges as [|r l IH]; intros index acc.
  - simpl. rewrite app_nil_r. unfold totalLength. simpl. split; [reflexivity|lia].
  - cbn [partialContentHeadersFrom]. destruct (IH (S index)
      {| headers := (headers acc ++ [partHeader index boundary contentType fileSize r])%list;
         size := size acc
                 + Z.of_nat (String.length
                               (partHeader index boundary contentType fileSize r)) |})
      as [Hh Hs].
    rewrite Hh, Hs. cbn [headers size]. rewrite imap_cons.
    replace (index + 0)%nat with index by lia.
    assert (imap ((fun i r0 => partHeader (index + i) boundary contentType fileSize r0) ∘ S) l
            = imap (fun i r0 => partHeader (S index + i) boundary contentType fileSize r0) l)
      as ->.
    { apply imap_ext. intros i x _. simpl. f_equal. lia. }
    split.
    + rewrite <- app_assoc. reflexivity.
    + unfold totalLength. simpl. lia.
Qed.

(** [partialContentHeaders] returns one header block per range, in the
    order of the set, the block of the first range alone lacking the
    leading line break, and [size] is the number of bytes of all the
    blocks together. *)
Theorem partialContentHeaders_blocks (ranges : list ByteRange)
    (boundary contentType : string) (fileSize : Z) :
  headers (partialContentHeaders ranges boundary contentType fileSize)
  = imap (fun index r => partHeader index boundary contentType fileSize r) ranges
  /\ size (partialContentHeaders ranges boundary contentType fileSize)
     = totalLength (headers (partialContentHeaders ranges boundary contentType fileSize)).
Proof.
  unfold partialContentHeaders.
  destruct (partialContentHeadersFrom_imap 0 ranges boundary contentType fileSize
              {| headers := []; size := 0 |}) as [Hh Hs].
  rewrite Hh, Hs. simpl. split; [reflexivity|lia].
Qed.

Lemma append_empty_r (s : string) : s ++ EmptyString = s.
Proof.
  induction s as [|c s IH]; [reflexivity|].
  change (String c (s ++ EmptyString) = String c s). now f_equal.
Qed.

(** [responseAllStream] changes nothing of the response but its body, to
    which it appends each header block followed by the bytes of its
    stream, in order; it stops at the first stream that has no header
    block, and fulfils its promise exactly when there is none. *)
Theorem streams_written_in_order (streams headerBlocks : list string) (response : Response) :
  body (responseAllStream streams headerBlocks response).1
  = body response ++ multipartBody headerBlocks streams EmptyString
  /\ (responseAllStream streams headerBlocks response).2
     = (List.length streams <=? List.length headerBlocks)%nat
  /\ statusCode (responseAllStream streams headerBlocks response).1 = statusCode response
  /\ headerMap (responseAllStream streams headerBlocks response).1 = headerMap response
  /\ finished (responseAllStream streams headerBlocks response).1 = finished response.
Proof.
  split; [|split; [apply responseAllStream_fulfilled|]].
  - revert headerBlocks response.
    induction streams as [|stream streams IH]; intros headerBlocks response.
    + destruct headerBlocks; simpl; now rewrite append_empty_r.
    + destruct headerBlocks as [|header headerBlocks];
        [simpl; now rewrite append_empty_r|].
      cbn [responseAllStream multipartBody]. rewrite IH. cbn [write body].
      now rewrite !append_assoc.
  - destruct (responseAllStream_keeps streams headerBlocks response) as (? & _ & ? & ?).
    auto.
Qed.

End Assembly.

(** * A multipart response on the sample file *)

Section Multipart_sample.

Lemma multipart_content_length_inside_witness :
  statusCode (httpListener sampleFiles sampleBoundary (sampleRequest "GET" "bytes=3-7,1-5"))
  = 206
  /\ headerMap (httpListener sampleFiles sampleBoundary (sampleRequest "GET" "bytes=3-7,1-5"))
       !! "Content-Length"
     = Some (HStr (JS.toString
                     (Z.of_nat
                        (String.length
                           (body (httpListener sampleFiles sampleBoundary
                                    (sampleRequest "GET" "bytes=3-7,1-5"))))))).
Proof.
  pose proof (multipart_content_length_inside sampleFiles sampleBoundary
                (sampleRequest "GET" "bytes=3-7,1-5") sampleFile "bytes=3-7,1-5"
                {| byteRangeSet := [{| start := 3; end_ := 7 |}; {| start := 1; end_ := 5 |}];
                   length := 10 |}) as H.
  cbv zeta in H.
  destruct H as (Hcode & _ & Hlength).
  - reflexivity.
  - vm_compute. reflexivity.
  - vm_compute. reflexivity.
  - reflexivity.
  - discriminate.
  - vm_compute. reflexivity.
  - simpl. lia.
  - repeat constructor; simpl; lia.
  - split; [exact Hcode | exact Hlength].
Defined.

End Multipart_sample.

(** * When the exact integers are the binary64 values *)

Section Exactness.
Import JS.

Lemma MAX_VALUE_large : 2 ^ 53 <= Binary64.MAX_VALUE.
Proof. vm_compute. discriminate. Qed.

Lemma round_exact (z : Z) : Z.abs z < 2 ^ 53 -> Binary64.round z = Binary64.Finite z.
Proof.
  intros H. unfold Binary64.round, Binary64.roundMagnitude.
  destruct (Z.ltb_spec (Z.abs z) (2 ^ 53)) as [_|Hge]; [|lia].
  pose proof MAX_VALUE_large.
  destruct (Z.ltb_spec Binary64.MAX_VALUE (Z.abs z)); [lia|].
  f_equal. destruct z; simpl; lia.
Qed.

Lemma add_exact (x y : Z) :
  Z.abs (x + y) < 2 ^ 53 ->
  Binary64.add (Binary64.Finite x) (Binary64.Finite y) = Binary64.Finite (x + y).
Proof. intros H. simpl. now apply round_exact. Qed.

Lemma sub_exact (x y : Z) :
  Z.abs (x - y) < 2 ^ 53 ->
  Binary64.sub (Binary64.Finite x) (Binary64.Finite y) = Binary64.Finite (x - y).
Proof. intros H. unfold Binary64.sub. simpl. now apply round_exact. Qed.

Lemma max_exact (x y : Z) :
  Binary64.max (Binary64.Finite x) (Binary64.Finite y) = Binary64.Finite (Z.max x y).
Proof. simpl. destruct (Z.ltb_spec x y); f_equal; lia. Qed.

Lemma min_exact (x y : Z) :
  Binary64.min (Binary64.Finite x) (Binary64.Finite y) = Binary64.Finite (Z.min x y).
Proof. simpl. destruct (Z.ltb_spec y x); f_equal; lia. Qed.

Lemma Number_acc_nonneg (s : string) (acc : Z) :
  string_forallb is_digit s = true -> 0 <= acc -> 0 <= Number_acc s acc.
Proof.
  revert acc. induction s as [|c s IH]; intros acc Hs Hacc; simpl; [assumption|].
  simpl in Hs. apply andb_true_iff in Hs as [Hc Hs]. apply IH; [assumption|].
  assert (0 <= digit_value c); [|lia].
  unfold digit_value, is_digit in *. apply andb_true_iff in Hc as [Hlo _].
  apply N.leb_le in Hlo. lia.
Qed.

Lemma exec_digits (s g1 g2 : string) :
  exec s = Some (g1, g2) ->
  string_forallb is_digit g1 = true /\ string_forallb is_digit g2 = true.
Proof.
  induction s as [|c s IH]; [discriminate|].
  rewrite exec_unfold.
  destruct (exec_here (String c s)) as [groups|] eqn:Hhere; [|exact IH].
  intros [= ->]. apply exec_here_sound in Hhere as (post & _ & H1 & H2 & _). auto.
Qed.

Lemma toNumber_exact (bound : Z) (g : string) :
  bound < 2 ^ 53 -> string_forallb is_digit g = true -> Number g <= bound ->
  Binary64.toNumber g = Binary64.Finite <$> toNumber g
  /\ (forall n, toNumber g = Some n -> 0 <= n <= bound).
Proof.
  intros Hbound Hdigits Hle.
  pose proof (Number_acc_nonneg g 0 Hdigits ltac:(lia)) as Hpos. fold (Number g) in Hpos.
  unfold Binary64.toNumber, toNumber, Binary64.Number.
  destruct g; [split; [reflexivity | discriminate]|].
  rewrite round_exact by lia. split; [reflexivity|]. intros n [= <-]. lia.
Qed.

Section Bounded.
#[local] Arguments Binary64.add : simpl never.
#[local] Arguments Binary64.sub : simpl never.
#[local] Arguments Binary64.round : simpl never.
Variable bound : Z.
Variable fileSize : Z.
Variable opts : Options.
Hypothesis Hbound : 4 * bound + 4 < 2 ^ 53.
Hypothesis HfileSize : 0 <= fileSize <= bound.
Hypothesis Hmax : 0 <= partialMaxLength opts <= bound.

Lemma expand_exact (start0 end0 : option Z) :
  (forall n, start0 = Some n -> 0 <= n <= bound) ->
  (forall n, end0 = Some n -> 0 <= n <= bound) ->
  Binary64.expand (Binary64.Finite fileSize)
    (Binary64.Finite <$> start0) (Binary64.Finite <$> end0)
  = exactRange (expand fileSize start0 end0)
  /\ - bound <= start (expand fileSize start0 end0) <= bound
  /\ - 1 <= end_ (expand fileSize start0 end0) <= bound.
Proof.
  intros Hs He. unfold Binary64.expand, expand, exactRange.
  destruct start0 as [s|]; destruct end0 as [e|]; cbn;
    try specialize (Hs _ eq_refl); try specialize (He _ eq_refl);
    rewrite ?sub_exact by lia; repeat split; cbn; lia.
Qed.

Lemma limit_exact (val : Z) :
  - bound - 1 <= val <= bound ->
  Binary64.limit opts (Binary64.Finite fileSize) (Binary64.Finite val)
  = Binary64.Finite (limit opts fileSize val)
  /\ Z.min val (- 1) <= limit opts fileSize val <= Z.max val bound.
Proof.
  intros Hval. unfold Binary64.limit, limit.
  destruct (correctValues opts); [|split; [reflexivity|lia]].
  rewrite sub_exact by lia. cbn.
  destruct (Z.ltb_spec val 0); [split; [reflexivity|lia]|].
  rewrite Z.gtb_ltb.
  destruct (Z.ltb_spec (fileSize - 1) val); split; try reflexivity; lia.
Qed.

Lemma truncate_exact (r : ByteRange) :
  - bound - 1 <= start r <= bound -> - bound - 1 <= end_ r <= bound ->
  Binary64.truncate (Binary64.round (partialMaxLength opts)) (exactRange r)
  = exactRange (truncate opts r)
  /\ rangeWithin bound (truncate opts r).
Proof.
  intros Hs He. unfold Binary64.truncate, truncate, exactRange, rangeWithin.
  rewrite round_exact by lia. cbn [Binary64.start Binary64.end_ Binary64.truthy].
  rewrite sub_exact, add_exact by lia. unfold Binary64.gtb. cbn [Binary64.ltb].
  rewrite Z.gtb_ltb.
  destruct (negb (partialMaxLength opts =? 0)
            && (partialMaxLength opts <? end_ r - start r + 1)) eqn:Hcut.
  - apply andb_true_iff in Hcut as [Hset Hcut]. apply Z.ltb_lt in Hcut.
    apply negb_true_iff, Z.eqb_neq in Hset.
    rewrite add_exact, sub_exact by lia. cbn. split; [reflexivity|lia].
  - cbn. split; [reflexivity|lia].
Qed.

Lemma parseSpec_exact (value : string) :
  groupsWithin bound value = true ->
  Binary64.parseSpec opts (Binary64.Finite fileSize) value
  = match parseSpec opts fileSize value with
    | Ok r => Ok (exactRange r)
    | Throw e => Throw e
    end
  /\ (forall r, parseSpec opts fileSize value = Ok r -> rangeWithin bound r).
Proof.
  unfold groupsWithin, Binary64.parseSpec, parseSpec.
  destruct (exec value) as [[g1 g2]|] eqn:Hexec; [|split; [reflexivity|discriminate]].
  intros [H1 H2]%andb_true_iff. apply Z.leb_le in H1, H2.
  destruct (exec_digits _ _ _ Hexec) as [Hd1 Hd2].
  destruct (toNumber_exact bound g1 ltac:(lia) Hd1 H1) as [-> Hn1].
  destruct (toNumber_exact bound g2 ltac:(lia) Hd2 H2) as [-> Hn2].
  destruct (expand_exact (toNumber g1) (toNumber g2) Hn1 Hn2) as (-> & Hs & He).
  set (p := expand fileSize (toNumber g1) (toNumber g2)) in *.
  destruct (limit_exact (start p) ltac:(lia)) as [Hls Hlsb].
  destruct (limit_exact (end_ p) ltac:(lia)) as [Hle Hleb].
  assert (Binary64.limitRange opts (Binary64.Finite fileSize) (exactRange p)
          = exactRange (limitRange opts fileSize p)) as ->.
  { unfold Binary64.limitRange, limitRange, exactRange. cbn. now rewrite Hls, Hle. }
  destruct (truncate_exact (limitRange opts fileSize p)) as [-> Hwithin];
    [cbn; lia | cbn; lia |].
  split; [reflexivity|]. now intros r [= <-].
Qed.

(** The loop of [getRanges], with the sum [length] kept below 2^53. *)
Lemma parseAll_exact (values : list string) (acc : Ranges) :
  forallb (groupsWithin bound) values = true ->
  Z.abs (length acc) + Z.of_nat (List.length values) * (2 * bound + 2) < 2 ^ 53 ->
  Forall (rangeWithin bound) (byteRangeSet acc) ->
  Binary64.parseAll opts (Binary64.Finite fileSize) values (exactRanges acc)
  = exactResult (parseAll opts fileSize values acc)
  /\ (forall res, parseAll opts fileSize values acc = Ok res ->
                  Forall (rangeWithin bound) (byteRangeSet res)).
Proof.
  revert acc. induction values as [|value rest IH]; intros acc Hvalues Hlength Hacc.
  - split; [reflexivity|]. now intros res [= <-].
  - cbn [forallb] in Hvalues. apply andb_true_iff in Hvalues as [Hvalue Hrest].
    destruct (parseSpec_exact value Hvalue) as [Hspec Hwithin].
    cbn [Binary64.parseAll parseAll]. rewrite Hspec.
    destruct (parseSpec opts fileSize value) as [r|e]; [|split; [reflexivity|discriminate]].
    cbn [mbind result_bind].
    destruct (Hwithin r eq_refl) as [Hs He].
    cbn [List.length] in Hlength.
    rewrite Nat2Z.inj_succ, Z.mul_succ_l in Hlength.
    remember (Z.of_nat (List.length rest) * (2 * bound + 2)) as tail eqn:Htail.
    assert (0 <= tail) by (subst tail; apply Z.mul_nonneg_nonneg; lia).
    set (acc' := {| byteRangeSet := byteRangeSet acc ++ [r];
                    length := length acc + (end_ r - start r + 1) |}).
    assert (Binary64.parseAll opts (Binary64.Finite fileSize) rest
              {| Binary64.byteRangeSet := Binary64.byteRangeSet (exactRanges acc)
                                          ++ [exactRange r];
                 Binary64.length :=
                   Binary64.add (Binary64.length (exactRanges acc))
                     (Binary64.add
                        (Binary64.sub (Binary64.end_ (exactRange r))
                                      (Binary64.start (exactRange r)))
                        (Binary64.Finite 1)) |}
            = Binary64.parseAll opts (Binary64.Finite fileSize) rest (exactRanges acc'))
      as ->.
    { f_equal. unfold exactRanges, acc'. cbn. rewrite map_app. cbn.
      rewrite sub_exact, add_exact, add_exact by lia. reflexivity. }
    apply IH; [assumption| |].
    + unfold acc'. cbn [length]. lia.
    + unfold acc'. cbn [byteRangeSet]. apply Forall_app. split; [assumption|].
      constructor; [split; assumption | constructor].
Qed.

Lemma scoreStep_exact (st : Score) (index : nat) (value : ByteRange) :
  rangeWithin bound (check st) -> rangeWithin bound value ->
  Binary64.scoreStep (exactScore st) index (exactRange value)
  = exactScore (scoreStep st index value).
Proof.
  intros [Hcs Hce] [Hvs Hve].
  unfold Binary64.scoreStep, scoreStep, exactScore, exactRange.
  cbn [Binary64.POINT_SUM Binary64.MULTIPLICATOR Binary64.check
       Binary64.start Binary64.end_ POINT_SUM MULTIPLICATOR check].
  rewrite max_exact, min_exact, !sub_exact, add_exact by lia.
  unfold Binary64.gtb. cbn [Binary64.ltb]. rewrite Z.gtb_ltb. reflexivity.
Qed.

Lemma scoreFrom_exact (index : nat) (values : list ByteRange) (st : Score) :
  rangeWithin bound (check st) -> Forall (rangeWithin bound) values ->
  Binary64.scoreFrom index (map exactRange values) (exactScore st)
  = exactScore (scoreFrom index values st).
Proof.
  intros Hcheck Hvalues. revert index st Hcheck.
  induction Hvalues as [|value rest Hvalue _ IH]; intros index st Hcheck; [reflexivity|].
  cbn [map Binary64.scoreFrom scoreFrom].
  rewrite scoreStep_exact by assumption. apply IH.
  unfold scoreStep. cbn [check]. exact Hvalue.
Qed.

Lemma scoreOf_exact (ranges : list ByteRange) :
  Forall (rangeWithin bound) ranges ->
  Binary64.scoreOf (map exactRange ranges) = exactScore <$> scoreOf ranges.
Proof.
  intros Hranges. unfold Binary64.scoreOf, scoreOf.
  destruct ranges as [|first rest]; [reflexivity|].
  cbn [map fmap option_fmap option_map].
  change {| Binary64.POINT_SUM := 0; Binary64.MULTIPLICATOR := 1;
            Binary64.check := exactRange first |}
    with (exactScore {| POINT_SUM := 0; MULTIPLICATOR := 1; check := first |}).
  change (exactRange first :: map exactRange rest) with (map exactRange (first :: rest)).
  rewrite scoreFrom_exact; [reflexivity| |assumption].
  cbn [check]. now apply Forall_cons in Hranges as [? _].
Qed.

(** On ranges within the bound the scorer decides on Numbers as it does
    on integers. *)
Lemma isDenialOfServiceAttacks_exact (ranges : list ByteRange) :
  Forall (rangeWithin bound) ranges ->
  Binary64.isDenialOfServiceAttacks (map exactRange ranges)
  = isDenialOfServiceAttacks ranges.
Proof.
  intros Hranges.
  unfold Binary64.isDenialOfServiceAttacks, isDenialOfServiceAttacks,
    Binary64.scoreOf, scoreOf, finalScore.
  destruct ranges as [|first rest]; [reflexivity|].
  cbn [map].
  change {| Binary64.POINT_SUM := 0; Binary64.MULTIPLICATOR := 1;
            Binary64.check := exactRange first |}
    with (exactScore {| POINT_SUM := 0; MULTIPLICATOR := 1; check := first |}).
  change (exactRange first :: map exactRange rest) with (map exactRange (first :: rest)).
  rewrite scoreFrom_exact; [reflexivity| |assumption].
  cbn [check]. now apply Forall_cons in Hranges as [? _].
Qed.

End Bounded.

(** Under [exactArithmetic], [getRanges] with the rounding of binary64
    returns or throws what it does on exact integers. *)
Lemma getRanges_exact (bound : Z) (range : string) (fileSize : Z) (opts : Options) :
  exactArithmetic bound range fileSize opts = true ->
  Binary64.getRanges range fileSize opts = exactResult (getRanges range fileSize opts).
Proof.
  unfold exactArithmetic, specsOf.
  intros H. repeat (apply andb_true_iff in H as [H ?]).
  repeat match goal with
         | H : (_ <=? _) = true |- _ => apply Z.leb_le in H
         | H : (_ <? _) = true |- _ => apply Z.ltb_lt in H
         end.
  unfold Binary64.getRanges, getRanges.
  destruct (split "=" (trim range)) as [|bytesUnit more]; [reflexivity|].
  destruct (negb (bytesUnit =? "bytes")%string); [reflexivity|].
  destruct more as [|specs more]; [reflexivity|].
  assert (4 * bound + 4 < 2 ^ 53) as Hbound.
  { pose proof (Nat2Z.is_nonneg (List.length (split "," specs))). nia. }
  rewrite round_exact by lia.
  fold noRanges.
  change {| Binary64.byteRangeSet := []; Binary64.length := Binary64.Finite 0 |}
    with (exactRanges noRanges).
  destruct (parseAll_exact bound fileSize opts Hbound ltac:(lia) ltac:(lia)
              (split "," specs) noRanges) as [-> Hwithin];
    [assumption | cbn; lia | constructor |].
  destruct (parseAll opts fileSize (split "," specs) noRanges) as [parsed|e];
    [|reflexivity].
  cbn [exactResult mbind result_bind]. cbn [exactRanges Binary64.byteRangeSet].
  rewrite (isDenialOfServiceAttacks_exact bound Hbound) by now apply Hwithin.
  destruct (preventAtack opts && isDenialOfServiceAttacks (byteRangeSet parsed));
    reflexivity.
Qed.

End Exactness.

(** * [getRanges] and the scorer with the rounding of binary64 *)

Section Rounded.
Import JS.

Lemma pow_2_50 : 2 ^ 50 = 1125899906842624.
Proof. reflexivity. Qed.

Lemma pow_2_53 : 2 ^ 53 = 9007199254740992.
Proof. reflexivity. Qed.

Lemma rounded_parseAll_inv opts fileSize values acc res :
  Binary64.parseAll opts fileSize values acc = Ok res ->
  exists new,
    Forall2 (fun value r => Binary64.parseSpec opts fileSize value = Ok r) values new
    /\ Binary64.byteRangeSet res = (Binary64.byteRangeSet acc ++ new)%list.
Proof.
  revert acc res. induction values as [|value rest IH]; intros acc res; simpl.
  - intros [= <-]. exists []. rewrite app_nil_r. split; [constructor | reflexivity].
  - destruct (Binary64.parseSpec opts fileSize value) as [r|e] eqn:Hr; simpl; [|discriminate].
    intros H. apply IH in H as (new & Hnew & Hset). simpl in Hset.
    exists (r :: new). split; [now constructor|].
    rewrite Hset, <- app_assoc. reflexivity.
Qed.

(** A set [getRanges] returns is never empty: the unit of the header is
    [bytes] and the set holds one range for each comma-separated spec, in
    the order of the header, whatever the numbers and the options. *)
Theorem returned_set_shape (range : string) (fileSize : Z) (opts : Options)
    (ranges : Binary64.Ranges) :
  Binary64.getRanges range fileSize opts = Ok ranges ->
  exists byteRangeSetString more,
    split "=" (trim range) = "bytes" :: byteRangeSetString :: more
    /\ Forall2 (fun value r =>
                  Binary64.parseSpec opts (Binary64.round fileSize) value = Ok r)
         (split "," byteRangeSetString) (Binary64.byteRangeSet ranges)
    /\ Binary64.byteRangeSet ranges <> [].
Proof.
  unfold Binary64.getRanges.
  destruct (split "=" (trim range)) as [|bytesUnit more]; [discriminate|].
  destruct (String.eqb_spec bytesUnit "bytes") as [->|]; cbn [negb]; [|discriminate].
  destruct more as [|specs more]; [discriminate|].
  destruct (Binary64.parseAll opts (Binary64.round fileSize) (split "," specs) _)
    as [parsed|e] eqn:Hparsed; cbn [mbind result_bind]; [|discriminate].
  destruct (preventAtack opts
            && Binary64.isDenialOfServiceAttacks (Binary64.byteRangeSet parsed));
    [discriminate|].
  intros [= <-].
  apply rounded_parseAll_inv in Hparsed as (new & Hnew & Hset). simpl in Hset. subst new.
  exists specs, more. split; [reflexivity|]. split; [assumption|].
  intros Hempty. rewrite Hempty in Hnew. inversion Hnew as [Hnil|].
  symmetry in Hnil. now apply split_nonempty in Hnil.
Qed.

Lemma returned_set_shape_witness :
  exists byteRangeSetString more,
    split "=" (trim " bytes=0-9007199254740993,-1") = "bytes" :: byteRangeSetString :: more
    /\ Forall2 (fun value r =>
                  Binary64.parseSpec defaultOptions (Binary64.round 1000) value = Ok r)
         (split "," byteRangeSetString)
         [{| Binary64.start := Binary64.Finite 0;
             Binary64.end_ := Binary64.Finite 9007199254740992 |};
          {| Binary64.start := Binary64.Finite 999;
             Binary64.end_ := Binary64.Finite 999 |}]
    /\ [{| Binary64.start := Binary64.Finite 0;
           Binary64.end_ := Binary64.Finite 9007199254740992 |};
        {| Binary64.start := Binary64.Finite 999;
           Binary64.end_ := Binary64.Finite 999 |}] <> [].
Proof.
  apply (returned_set_shape " bytes=0-9007199254740993,-1" 1000 defaultOptions
           {| Binary64.byteRangeSet :=
                [{| Binary64.start := Binary64.Finite 0;
                    Binary64.end_ := Binary64.Finite 9007199254740992 |};
                 {| Binary64.start := Binary64.Finite 999;
                    Binary64.end_ := Binary64.Finite 999 |}];
              Binary64.length := Binary64.Finite 9007199254740992 |}).
  vm_compute. reflexivity.
Defined.




Lemma specsOf_single (spec : string) :
  string_forallb (fun c => is_digit c || Ascii.eqb c "-") spec = true ->
  specsOf ("bytes=" ++ spec) = [spec].
Proof.
  intros H. destruct (header_pieces spec H) as [Hunit Hlist].
  unfold specsOf. now rewrite Hunit.
Qed.

(** A suffix spec [-N] longer than the file, with [N] and the maximum
    chunk length at most 2^50.  Without [correctValues] (as the server
    calls [getRanges]) the range is accepted with the negative start
    [fileSize - N]; with [correctValues] the start is clamped and the
    range is the whole file. *)
Theorem suffix_longer_than_file (fileSize N : Z) (opts : Options) :
  0 < fileSize < N -> N <= 2 ^ 50 -> 0 <= partialMaxLength opts <= 2 ^ 50 ->
  (correctValues opts = false ->
   partialMaxLength opts = 0 \/ N <= partialMaxLength opts ->
   Binary64.getRanges ("bytes=-" ++ toString N) fileSize opts
   = Ok (exactRanges
           {| byteRangeSet := [{| start := fileSize - N; end_ := fileSize - 1 |}];
              length := N |}))
  /\ (correctValues opts = true ->
      partialMaxLength opts = 0 \/ fileSize <= partialMaxLength opts ->
      Binary64.getRanges ("bytes=-" ++ toString N) fileSize opts
      = Ok (exactRanges
              {| byteRangeSet := [{| start := 0; end_ := fileSize - 1 |}];
                 length := fileSize |})).
Proof.
  intros Hsize HN Hmax.
  assert (exactArithmetic (2 ^ 50) ("bytes=-" ++ toString N) fileSize opts = true)
    as Hexact.
  { unfold exactArithmetic.
    change ("bytes=-" ++ toString N) with ("bytes=" ++ String "-" (toString N)).
    rewrite specsOf_single by (simpl; apply digits_or_dash; lia).
    cbn [forallb List.length]. unfold groupsWithin.
    rewrite exec_suffix by (apply toString_digits; lia).
    rewrite Number_toString by lia.
    change (Number EmptyString) with 0.
    repeat (apply andb_true_iff; split);
      first [apply Z.leb_le; rewrite ?pow_2_50; lia | reflexivity]. }
  pose proof (suffix_longer_on_integers fileSize N opts Hsize) as [Hplain Hclamped].
  split; intros Hcorrect Hfits; rewrite (getRanges_exact (2 ^ 50)) by assumption.
  - now rewrite Hplain.
  - now rewrite Hclamped.
Qed.

Lemma suffix_longer_than_file_witness :
  Binary64.getRanges "bytes=-25" 10 serverOptions
  = Ok (exactRanges
          {| byteRangeSet := [{| start := 10 - 25; end_ := 10 - 1 |}]; length := 25 |})
  /\ Binary64.getRanges "bytes=-25" 10
       {| correctValues := true; preventAtack := true; partialMaxLength := 0 |}
     = Ok (exactRanges
             {| byteRangeSet := [{| start := 0; end_ := 10 - 1 |}]; length := 10 |}).
Proof.
  split.
  - apply (proj1 (suffix_longer_than_file 10 25 serverOptions ltac:(lia)
                    ltac:(vm_compute; discriminate)
                    ltac:(split; vm_compute; discriminate)));
      [reflexivity | right; vm_compute; discriminate].
  - apply (proj2 (suffix_longer_than_file 10 25
                    {| correctValues := true; preventAtack := true; partialMaxLength := 0 |}
                    ltac:(lia) ltac:(vm_compute; discriminate)
                    ltac:(split; vm_compute; discriminate)));
      [reflexivity | left; reflexivity].
Defined.

(** A set of parts wider than 65536 bytes that lie between 0 and 2^50,
    each starting after the end of the part before it, scores no point
    and is accepted, however many parts it has. *)
Theorem wide_ascending_accepted (ranges : list ByteRange) :
  Forall (fun r => 65536 < width r) ranges ->
  Forall (fun r => 0 <= start r /\ end_ r <= 2 ^ 50) ranges ->
  allPairs sortTest ranges = true ->
  from_option Binary64.POINT_SUM 0 (Binary64.scoreOf (map exactRange ranges)) = 0
  /\ Binary64.isDenialOfServiceAttacks (map exactRange ranges) = false.
Proof.
  intros Hwide Hinside Hsorted.
  assert (4 * 2 ^ 50 + 4 < 2 ^ 53) as Hbound by (rewrite pow_2_50, pow_2_53; lia).
  assert (Forall (rangeWithin (2 ^ 50)) ranges) as Hwithin.
  { apply Forall_forall. intros r Hr.
    pose proof (proj1 (Forall_forall _ _) Hwide r Hr) as Hw.
    pose proof (proj1 (Forall_forall _ _) Hinside r Hr) as [Hs He].
    simpl in Hw. unfold width in Hw. unfold rangeWithin.
    rewrite pow_2_50 in *. lia. }
  destruct (wide_ascending_on_integers ranges Hwide Hsorted) as [Hsum Hdos].
  rewrite (scoreOf_exact (2 ^ 50) Hbound), (isDenialOfServiceAttacks_exact (2 ^ 50) Hbound)
    by assumption.
  split; [|exact Hdos].
  unfold pointSumOf in Hsum. destruct (scoreOf ranges); exact Hsum.
Qed.

Lemma wide_ascending_accepted_witness :
  from_option Binary64.POINT_SUM 0
    (Binary64.scoreOf
       (map exactRange
          [{| start := 0; end_ := 99999 |}; {| start := 200000; end_ := 300000 |};
           {| start := 400000; end_ := 500000 |}])) = 0
  /\ Binary64.isDenialOfServiceAttacks
       (map exactRange
          [{| start := 0; end_ := 99999 |}; {| start := 200000; end_ := 300000 |};
           {| start := 400000; end_ := 500000 |}]) = false.
Proof.
  apply wide_ascending_accepted; [| |reflexivity].
  - repeat constructor.
  - repeat constructor; simpl; try lia; vm_compute; discriminate.
Defined.

End Rounded.
